(** * ralph-mcp: the delta observation engine

    A shallow embedding of the story board and polling code of ralph-mcp
    (src/exec.ts, src/tools/changes.ts, src/tools/prd-read.ts,
    src/tools/prd-update.ts, src/tools/logs.ts and the status tool), with
    the properties of its specification stated over it.

    Conventions of the embedding:
    - a JavaScript string is a [string]; the characters are bytes, so the
      white space of [trim] and of the regular expression class [\s] is the
      ASCII white space;
    - a JavaScript number that holds an integer is a [Z]; [number] adds the
      value NaN where the source can produce it ([parseInt]); where the
      source adds to a number that can be beyond 2^53 the rounding of the
      sum is written out ([JS.succ]);
    - what [JSON.parse] returns is a [json]: a ledger, a falsy value, or a
      value that has no stories; the source types it as a ledger and checks
      nothing, so the embedding carries the value to the place where the
      source reads its stories ([storiesOf], [ifLedger]);
    - a promise is a [result]: it resolves ([Returns]) or rejects
      ([Throws]); [await] is the bind of that monad and [try]/[catch] is
      [try_catch];
    - everything outside the program (the git and docker processes, the file
      system, the clock, [JSON.parse]) is a field of a [World] record that
      the functions read. *)

From stdpp Require Import base option list gmap strings sorting.
From Stdlib Require Import ZArith Lia Ascii Sorting.Sorted Permutation.
From Stdlib Require DecimalString.

Local Open Scope Z_scope.

(** ** Promises and exceptions *)

Inductive result (A : Type) : Type :=
  | Returns (a : A)
  | Throws.
Arguments Returns {A} a.
Arguments Throws {A}.

#[global] Instance result_ret : MRet result := @Returns.
#[global] Instance result_bind : MBind result :=
  fun A B (f : A -> result B) (m : result A) =>
    match m with
    | Returns a => f a
    | Throws => Throws
    end.

#[global] Instance result_fmap : FMap result :=
  fun A B (f : A -> B) (m : result A) =>
    match m with
    | Returns a => Returns (f a)
    | Throws => Throws
    end.

(** [try { body } catch { handler }] *)
Definition try_catch {A} (body : result A) (handler : result A) : result A :=
  match body with
  | Returns a => Returns a
  | Throws => handler
  end.

(** [promise.catch(() => v)] *)
Definition catch {A} (p : result A) (v : A) : result A :=
  try_catch p (Returns v).

(** ** JavaScript numbers, strings and arrays *)

Inductive number : Type :=
  | NaN
  | Num (z : Z).

Module JS.

(** [a < b] and [a > b]: false as soon as one side is NaN. *)
Definition lt (a b : number) : bool :=
  match a, b with
  | Num x, Num y => x <? y
  | _, _ => false
  end.
Definition gt (a b : number) : bool := lt b a.

Definition sub (a b : number) : number :=
  match a, b with
  | Num x, Num y => Num (x - y)
  | _, _ => NaN
  end.

Definition mul (a b : number) : number :=
  match a, b with
  | Num x, Num y => Num (x * y)
  | _, _ => NaN
  end.

Definition is_digit (c : ascii) : bool :=
  match Ascii.is_nat c with
  | Some _ => true
  | None => false
  end.

Definition digit_val (c : ascii) : Z :=
  match Ascii.is_nat c with
  | Some d => Z.of_nat d
  | None => 0
  end.

(** The longest prefix of digits, and what follows it. *)
Fixpoint span_digits (s : string) : list ascii * string :=
  match s with
  | String c s' =>
      if is_digit c
      then let '(ds, rest) := span_digits s' in (c :: ds, rest)
      else ([], s)
  | EmptyString => ([], s)
  end.

Definition digits_val (ds : list ascii) : Z :=
  foldl (fun acc c => 10 * acc + digit_val c) 0 ds.

Fixpoint trimStart (s : string) : string :=
  match s with
  | String c s' => if Ascii.is_space c then trimStart s' else s
  | EmptyString => s
  end.

Definition trimEnd (s : string) : string :=
  String.rev (trimStart (String.rev s)).

Definition trim (s : string) : string := trimEnd (trimStart s).

(** [parseInt(s, 10)]: leading white space, an optional sign, then the
    longest run of digits; NaN when there is no digit. *)
Definition parseInt (s : string) : number :=
  let s := trimStart s in
  let '(neg, body) :=
    match s with
    | String "-"%char s' => (true, s')
    | String "+"%char s' => (false, s')
    | _ => (false, s)
    end in
  match span_digits body with
  | ([], _) => NaN
  | (ds, _) => Num (if neg then - digits_val ds else digits_val ds)
  end.

(** [s.split(sep)] for a separator of one character. *)
Fixpoint split (sep : ascii) (s : string) : list string :=
  match s with
  | EmptyString => [EmptyString]
  | String c s' =>
      if Ascii.eqb c sep then EmptyString :: split sep s'
      else match split sep s' with
           | h :: t => String c h :: t
           | [] => [String c EmptyString]
           end
  end.

(** [parts.join(sep)] *)
Fixpoint join (sep : string) (parts : list string) : string :=
  match parts with
  | [] => EmptyString
  | [p] => p
  | p :: ps => p +:+ sep +:+ join sep ps
  end.

(** [s.indexOf(c)] for a single character, -1 when it does not occur. *)
Fixpoint indexOf (c : ascii) (s : string) : Z :=
  match s with
  | EmptyString => -1
  | String a s' =>
      if Ascii.eqb a c then 0
      else let i := indexOf c s' in if i <? 0 then -1 else i + 1
  end.

Definition clamp (len i : Z) : Z := Z.max 0 (Z.min i len).

(** [s.substring(start, end)]: both ends are clamped to the string and
    swapped when out of order. *)
Definition substring (s : string) (start stop : Z) : string :=
  let len := Z.of_nat (String.length s) in
  let a := clamp len start in
  let b := clamp len stop in
  let lo := Z.min a b in
  let hi := Z.max a b in
  String.substring (Z.to_nat lo) (Z.to_nat (hi - lo)) s.

(** [s.substring(start)] *)
Definition substringFrom (s : string) (start : Z) : string :=
  substring s start (Z.of_nat (String.length s)).

Definition endsWith (s suffix : string) : bool :=
  let n := String.length s in
  let m := String.length suffix in
  if (m <=? n)%nat
  then String.eqb (String.substring (n - m) m s) suffix
  else false.

(** [s.replace(pattern, replacement)] for a string pattern: the first
    occurrence only. *)
Fixpoint replace (pattern replacement s : string) : string :=
  if String.prefix pattern s
  then replacement +:+
       String.substring (String.length pattern)
         (String.length s - String.length pattern) s
  else match s with
       | EmptyString => s
       | String c s' => String c (replace pattern replacement s')
       end.

(** [xs.slice(-n)]: the last [n] elements. *)
Definition slice_last {A} (n : nat) (xs : list A) : list A :=
  drop (length xs - n) xs.

(** [xs.sort(cmp)]: the sort is stable, and [cmp a b <= 0] keeps [a]
    before [b].  Any stable sort computes the same list; this one is an
    insertion sort. *)
Fixpoint sort_insert {A} (cmp : A -> A -> Z) (x : A) (l : list A) : list A :=
  match l with
  | [] => [x]
  | y :: l' => if cmp x y <=? 0 then x :: l else y :: sort_insert cmp x l'
  end.

Fixpoint sort {A} (cmp : A -> A -> Z) (l : list A) : list A :=
  match l with
  | [] => []
  | x :: l' => sort_insert cmp x (sort cmp l')
  end.

(** [x + 1] for a number that holds an integer [x >= 0].  Below 2^53 the
    sum is exact.  From 2^53 to 2^54 the numbers are the even integers
    and [x + 1] lies half way between two of them: it is rounded to the
    one whose half is even.  From 2^54 on the numbers are 4 or more
    apart and the sum is rounded back to [x]. *)
Definition succ (x : Z) : Z :=
  if x <? 2 ^ 53 then x + 1
  else if (x <? 2 ^ 54) && Z.odd (x / 2) then x + 2
  else x.

(** [String(n)] and [`${n}`] for an integer. *)
Definition toString (z : Z) : string :=
  DecimalString.NilZero.string_of_int (Z.to_int z).

(** [xs.slice(start)]: a negative start counts from the end, and -0 is 0. *)
Definition slice {A} (start : Z) (xs : list A) : list A :=
  if start <? 0
  then drop (Z.to_nat (Z.max (Z.of_nat (length xs) + start) 0)) xs
  else drop (Z.to_nat start) xs.


End JS.

(** ** types.ts *)

(** A field declared [f?: T | null]. *)
Inductive nullable (A : Type) : Type :=
  | Undefined
  | Null
  | Value (a : A).
Arguments Undefined {A}.
Arguments Null {A}.
Arguments Value {A} a.

(** Truthiness of a nullable string: set, and not the empty string. *)
Definition truthy (v : nullable string) : bool :=
  match v with
  | Value s => negb (String.eqb s EmptyString)
  | _ => false
  end.

(** Truthiness of an optional string ([f?: string]). *)
Definition truthy_opt (v : option string) : bool :=
  match v with
  | Some s => negb (String.eqb s EmptyString)
  | None => false
  end.

Module UserStory.
Record t : Type := mk {
  id : string;
  title : string;
  description : string;
  acceptanceCriteria : list string;
  priority : Z;
  passes : bool;
  notes : option string;
  claimed_by : nullable string;
  claimed_at : nullable string;
  verified : option bool;
  verified_by : nullable string;
  verified_at : nullable string;
  verification_notes : nullable string
}.

(** [s.verified] in a condition: present and true. *)
Definition is_verified (s : t) : bool :=
  match verified s with
  | Some b => b
  | None => false
  end.

(** [s.verified !== undefined] *)
Definition has_verified (s : t) : bool :=
  match verified s with
  | Some _ => true
  | None => false
  end.
End UserStory.

Module PRD.
Record t : Type := mk {
  project : string;
  branchName : option string;
  description : option string;
  userStories : list UserStory.t
}.
End PRD.

(** What [JSON.parse] returns for the text of a ledger file.  The source
    looks at such a value in two ways only: it tests its truth, and it
    reads [userStories] to call an array method on it or to iterate over
    it.  So three kinds of value are told apart:
    - [Falsy]: null, false, 0 or the empty string;
    - [Ledger prd]: an object of the shape of a PRD;
    - [NoStories]: any other truthy value whose [userStories] cannot be
      used as a list: it is missing, as in the object [{}], in an array,
      a number or a string, or it is there and is null, a number, a
      boolean or an object.
    An object whose [userStories] is a string, or an array that holds
    something else than stories, is outside the embedding. *)
Inductive json : Type :=
  | Falsy
  | Ledger (prd : PRD.t)
  | NoStories.

(** [v.userStories.find(...)], [.filter(...)], [.some(...)], and
    [for (const s of v.userStories)]: reading a property of null throws,
    and so does calling an array method on, or iterating over, what any
    other value without stories gives. *)
Definition storiesOf (v : json) : result PRD.t :=
  match v with
  | Ledger prd => Returns prd
  | Falsy | NoStories => Throws
  end.

(** [if (v) { ... v.userStories ... }]: nothing is read of a falsy
    value. *)
Definition ifLedger (v : json) : result (option PRD.t) :=
  match v with
  | Falsy => Returns None
  | Ledger prd => Returns (Some prd)
  | NoStories => Throws
  end.

Module ExecResult.
Record t : Type := mk {
  success : bool;
  stdout : string;
  stderr : string;
  code : Z
}.
End ExecResult.

(** ** The world outside the program *)

Module DirEntry.
Record t : Type := mk { name : string; isFile : bool }.
End DirEntry.

Module FileInfo.
(** [mtime] is null on platforms that do not report it. *)
Record t : Type := mk { mtime : option Z; size : Z }.
End FileInfo.

Record World : Type := {
  (** the process run by [Deno.Command]: the command line and the working
      directory; it rejects when the process cannot be spawned *)
  spawn : list string -> option string -> result ExecResult.t;
  (** [Deno.stat] *)
  stat : string -> result FileInfo.t;
  (** [Deno.readDir], collected *)
  readDir : string -> result (list DirEntry.t);
  (** [Deno.readTextFile] *)
  readTextFile : string -> result string;
  (** [Date.now()]; a call reads one instant *)
  now : Z;
  (** [JSON.parse]: it throws on a text that is not JSON *)
  JSON_parse : string -> result json;
  (** [JSON.stringify(prd, null, 2)] *)
  JSON_stringify : PRD.t -> string;
  (** [Deno.makeTempDir] *)
  makeTempDir : result string;
  (** [Deno.writeTextFile]: whether the write goes through *)
  writeTextFile : string -> string -> result unit
}.

(** ** exec.ts *)

Module Exec.

(** [exec(cmd, {cwd})]: run the command and capture its output. *)
Definition exec (w : World) (cmd : list string) (cwd : option string)
  : result ExecResult.t :=
  spawn w cmd cwd.

(** The ref containing the latest prd.json in a bare repo. *)
Definition resolveLatestPrdRef (w : World) (bareRepo : string) : result string :=
  res ← exec w ["git"; "log"; "--all"; "-1"; "--format=%H"; "--"; "prd.json"]
                 (Some bareRepo);
  if ExecResult.success res
     && negb (String.eqb (JS.trim (ExecResult.stdout res)) "")
  then mret (JS.trim (ExecResult.stdout res))
  else mret "HEAD".

(** The latest commit across all branches in a bare repo. *)
Definition resolveLatestCommit (w : World) (bareRepo : string) : result string :=
  res ← exec w ["git"; "log"; "--all"; "-1"; "--format=%H"] (Some bareRepo);
  if ExecResult.success res
     && negb (String.eqb (JS.trim (ExecResult.stdout res)) "")
  then mret (JS.trim (ExecResult.stdout res))
  else mret "unknown".

End Exec.

(** ** tools/changes.ts *)

Module ContainerInfo.
(** The three fields come from destructuring a split line, which leaves
    the missing ones undefined ([None]). *)
Record t : Type := mk {
  name : option string;
  status : option string;
  running_for : option string
}.
End ContainerInfo.

Module StoryTransition.
Record t : Type := mk {
  id : string;
  title : string;
  from : string;
  to : string
}.
End StoryTransition.

Module LogEntry.
Record t : Type := mk { file : string; last_lines : string }.
End LogEntry.

Module CommitLine.
Record t : Type := mk { hash : string; message : string }.
End CommitLine.

Module LogScan.
Record t : Type := mk {
  new_count : nat;
  recent_summaries : list LogEntry.t
}.
End LogScan.

Module Containers.
Record t : Type := mk {
  current : list ContainerInfo.t;
  likely_new : list (option string)
}.
End Containers.

Module ChangesResult.
Record t : Type := mk {
  project : string;
  since_commit : string;
  latest_commit : string;
  new_commits : list CommitLine.t;
  story_transitions : list StoryTransition.t;
  new_log_entries : LogScan.t;
  containers : Containers.t
}.
End ChangesResult.

Module NewFile.
Record t : Type := mk { name : string; mtime : Z }.
End NewFile.

Module Changes.

(** A value inside a template literal. *)
Definition template (v : nullable string) : string :=
  match v with
  | Value s => s
  | Null => "null"
  | Undefined => "undefined"
  end.

Definition storyStatus (s : UserStory.t) : string :=
  if UserStory.passes s then "done"
  else if truthy (UserStory.claimed_by s)
       then "claimed by " +:+ template (UserStory.claimed_by s)
       else "available".

(** The body of the loop over the stories of the new ledger. *)
Definition diffStep (oldMap : gmap string UserStory.t)
    (transitions : list StoryTransition.t) (s : UserStory.t)
  : list StoryTransition.t :=
  let prev := oldMap !! UserStory.id s in
  let prevStatus :=
    match prev with
    | Some p => storyStatus p
    | None => "new"
    end in
  let currStatus := storyStatus s in
  if negb (String.eqb prevStatus currStatus)
  then transitions ++
         [StoryTransition.mk (UserStory.id s) (UserStory.title s)
            prevStatus currStatus]
  else transitions.

Definition diffStories (oldPrd newPrd : option PRD.t)
  : list StoryTransition.t :=
  match newPrd with
  | None => []
  | Some newPrd =>
      let oldMap : gmap string UserStory.t :=
        match oldPrd with
        | Some oldPrd =>
            foldl (fun m s => <[UserStory.id s := s]> m) ∅
                  (PRD.userStories oldPrd)
        | None => ∅
        end in
      foldl (diffStep oldMap) [] (PRD.userStories newPrd)
  end.

(** [diffStories] as the handler calls it, on what [readPrdAtCommit]
    returned: the source declares the arguments as ledgers or null and
    checks neither.  A falsy current value gives no transition; after
    that the stories of a truthy baseline and those of the current value
    are iterated over, which throws on a value that has none. *)
Definition diffParsed (oldPrd newPrd : json)
  : result (list StoryTransition.t) :=
  match newPrd with
  | Falsy => mret []
  | _ =>
      oldPrd ← ifLedger oldPrd;
      newPrd ← storiesOf newPrd;
      mret (diffStories oldPrd (Some newPrd))
  end.

(** The value returned inside the [try] is [Some]; falling out of it, or
    into the [catch], leads to [return null]. *)
Definition readPrdAtCommit (w : World) (bareRepo commit : string)
  : result json :=
  match
    try_catch
      (res ← Exec.exec w ["git"; "show"; commit +:+ ":prd.json"]
                     (Some bareRepo);
       if ExecResult.success res
       then Some <$> JSON_parse w (ExecResult.stdout res)
       else mret None)
      (mret None)
  with
  | Returns (Some v) => mret v
  | _ => mret Falsy
  end.

(** The loop of [scanNewLogs] over the directory entries; a rejected
    [Deno.stat] leaves the loop. *)
Fixpoint scanEntries (w : World) (logsDir : string) (sinceTimestamp : number)
    (entries : list DirEntry.t) (newFiles : list NewFile.t)
  : result (list NewFile.t) :=
  match entries with
  | [] => mret newFiles
  | entry :: entries =>
      if DirEntry.isFile entry && JS.endsWith (DirEntry.name entry) ".log"
      then
        st ← stat w (logsDir +:+ "/" +:+ DirEntry.name entry);
        let mtime := default 0 (FileInfo.mtime st) in
        if JS.gt (Num mtime) sinceTimestamp
        then scanEntries w logsDir sinceTimestamp entries
               (newFiles ++ [NewFile.mk (DirEntry.name entry) mtime])
        else scanEntries w logsDir sinceTimestamp entries newFiles
      else scanEntries w logsDir sinceTimestamp entries newFiles
  end.

(** The last ten lines of a file. *)
Definition tailLines (content : string) : string :=
  let lines := JS.split "010" content in
  JS.join (String "010" "") (JS.slice_last 10 lines).

Definition summarize (w : World) (logsDir : string) (f : NewFile.t)
  : result LogEntry.t :=
  content ← readTextFile w (logsDir +:+ "/" +:+ NewFile.name f);
  mret (LogEntry.mk (NewFile.name f) (tailLines content)).

Definition byMtimeDesc (a b : NewFile.t) : Z :=
  NewFile.mtime b - NewFile.mtime a.

Definition scanNewLogs (w : World) (logsDir : string) (sinceTimestamp : number)
  : result LogScan.t :=
  match
    entries ← readDir w logsDir;
    scanEntries w logsDir sinceTimestamp entries []
  with
  | Throws => mret (LogScan.mk 0 [])
  | Returns newFiles =>
      let sorted := JS.sort byMtimeDesc newFiles in
      let top := take 5 sorted in
      summaries ← mapM (summarize w logsDir) top;
      mret (LogScan.mk (length newFiles) summaries)
  end.

(** *** The uptime pattern [/(\d+)\s*(second|minute|hour|day)/]

    A match that starts at a given position takes the whole run of digits
    there and all the white space after it: giving back a digit or a
    space leaves a digit or a space in front of the unit, which no unit
    starts with.  The four units are not prefixes of one another. *)
Definition units : list string := ["second"; "minute"; "hour"; "day"].

(** The match anchored at the start of [s]: the groups 1 and 2. *)
Definition matchHere (s : string) : option (string * string) :=
  match JS.span_digits s with
  | ([], _) => None
  | (ds, rest) =>
      match List.find (fun u => String.prefix u (JS.trimStart rest)) units with
      | Some u => Some (String.string_of_list_ascii ds, u)
      | None => None
      end
  end.

(** [s.match(re)]: the leftmost match. *)
Fixpoint uptimeMatch (s : string) : option (string * string) :=
  match matchHere s with
  | Some m => Some m
  | None =>
      match s with
      | String _ s' => uptimeMatch s'
      | EmptyString => None
      end
  end.

Definition unitMs (unit : string) : Z :=
  if String.eqb unit "second" then 1000
  else if String.eqb unit "minute" then 60000
  else if String.eqb unit "hour" then 3600000
  else 86400000.

(** The filter of [likelyNew] on the uptime string of one container. *)
Definition isLikelyNew (now : Z) (sinceTimestamp : number)
    (running_for : string) : bool :=
  match uptimeMatch running_for with
  | None => false
  | Some (digits, unit) =>
      let val := JS.parseInt digits in
      let uptimeMs := JS.mul val (Num (unitMs unit)) in
      let sinceDuration := JS.sub (Num now) sinceTimestamp in
      JS.lt uptimeMs sinceDuration
  end.

(** [containers.filter(...)]: reading [running_for.match] of a record
    whose field is undefined throws. *)
Fixpoint likelyNewFilter (now : Z) (sinceTimestamp : number)
    (containers : list ContainerInfo.t) : result (list ContainerInfo.t) :=
  match containers with
  | [] => mret []
  | c :: cs =>
      match ContainerInfo.running_for c with
      | None => Throws
      | Some running_for =>
          rest ← likelyNewFilter now sinceTimestamp cs;
          if isLikelyNew now sinceTimestamp running_for
          then mret (c :: rest)
          else mret rest
      end
  end.

Definition nonEmpty (l : string) : bool := negb (String.eqb l "").

Definition parseCommitLine (line : string) : CommitLine.t :=
  let spaceIdx := JS.indexOf " " line in
  CommitLine.mk (JS.substring line 0 spaceIdx)
                (JS.substringFrom line (spaceIdx + 1)).

Definition parseContainerLine (line : string) : ContainerInfo.t :=
  let parts := JS.split "009" line in
  ContainerInfo.mk (parts !! 0%nat) (parts !! 1%nat) (parts !! 2%nat).

Definition failed : ExecResult.t := ExecResult.mk false "" "" 1.

Definition tab : string := String "009" "".

Definition dockerPs : list string :=
  ["docker"; "ps"; "--filter"; "name=ralph-"; "--format";
   "{{.Names}}" +:+ tab +:+ "{{.Status}}" +:+ tab +:+ "{{.RunningFor}}"].

(** [changesTool.handler]; the result is the document before
    [JSON.stringify].  The five lookups under [Promise.all] read the world
    and change nothing, so awaiting them one after the other gives the
    same outcome: the call rejects as soon as one of them rejects.  What
    is thrown later, by [diffStories] or by the filter of [likelyNew],
    rejects the call too. *)
Definition handler (w : World) (project_dir : string)
    (since_commit : option string) : result ChangesResult.t :=
  let bareRepo := project_dir +:+ "/.ralph/repo.git" in
  let logsDir := project_dir +:+ "/agent_logs" in
  sinceCommit ←
    (if truthy_opt since_commit then mret (default "" since_commit)
     else
       initResult ← Exec.exec w ["git"; "rev-list"; "--max-parents=0"; "HEAD"]
                        (Some bareRepo);
       mret (if ExecResult.success initResult
             then default ""
                    (head (JS.split "010" (JS.trim (ExecResult.stdout initResult))))
             else "HEAD"));
  headResult ← Exec.exec w ["git"; "rev-parse"; "HEAD"] (Some bareRepo);
  let latestCommit :=
    if ExecResult.success headResult
    then JS.trim (ExecResult.stdout headResult)
    else "unknown" in
  sinceTimestampResult ←
    Exec.exec w ["git"; "show"; "-s"; "--format=%ct"; sinceCommit]
      (Some bareRepo);
  let sinceTimestamp :=
    if ExecResult.success sinceTimestampResult
    then JS.mul (JS.parseInt (JS.trim (ExecResult.stdout sinceTimestampResult)))
                (Num 1000)
    else Num 0 in
  commitsResult ←
    catch (Exec.exec w ["git"; "log"; "--oneline"; sinceCommit +:+ "..HEAD"; "--all"]
             (Some bareRepo))
          failed;
  oldPrd ← readPrdAtCommit w bareRepo sinceCommit;
  newPrd ← readPrdAtCommit w bareRepo "HEAD";
  dockerResult ← catch (Exec.exec w dockerPs None) failed;
  logEntries ← scanNewLogs w logsDir sinceTimestamp;
  let newCommits :=
    if ExecResult.success commitsResult
    then parseCommitLine <$>
           List.filter nonEmpty
             (JS.split "010" (JS.trim (ExecResult.stdout commitsResult)))
    else [] in
  storyTransitions ← diffParsed oldPrd newPrd;
  let containers :=
    if ExecResult.success dockerResult
    then parseContainerLine <$>
           List.filter nonEmpty
             (JS.split "010" (JS.trim (ExecResult.stdout dockerResult)))
    else [] in
  likelyNew ← likelyNewFilter (now w) sinceTimestamp containers;
  mret (ChangesResult.mk project_dir sinceCommit latestCommit newCommits
          storyTransitions logEntries
          (Containers.mk containers (ContainerInfo.name <$> likelyNew))).

End Changes.

(** ** tools/prd-read.ts *)

Module Board.
(** The [stories] object of a story board.  Each group is kept as the
    list of the stories in it; the handlers print a selection of the
    fields of each. *)
Record t : Type := mk {
  available : list UserStory.t;
  claimed : list UserStory.t;
  verifying : list UserStory.t;
  done : list UserStory.t
}.
End Board.

Module PrdRead.

(** The value returned inside the first [try] is [Some], whatever it is;
    falling out of that [try], or into its [catch], leads to the second. *)
Definition readPrd (w : World) (projectDir : string) : result json :=
  let bareRepo := projectDir +:+ "/.ralph/repo.git" in
  match
    try_catch
      (_ ← stat w bareRepo;
       ref ← Exec.resolveLatestPrdRef w bareRepo;
       res ← Exec.exec w ["git"; "show"; ref +:+ ":prd.json"] (Some bareRepo);
       if ExecResult.success res
       then Some <$> JSON_parse w (ExecResult.stdout res)
       else mret None)
      (mret None)
  with
  | Returns (Some v) => mret v
  | _ =>
      try_catch
        (text ← readTextFile w (projectDir +:+ "/prd.json");
         JSON_parse w text)
        (mret Falsy)
  end.

Definition byPriority (a b : UserStory.t) : Z :=
  UserStory.priority a - UserStory.priority b.

Definition available (prd : PRD.t) : list UserStory.t :=
  JS.sort byPriority
    (List.filter
       (fun s => negb (UserStory.passes s) && negb (truthy (UserStory.claimed_by s)))
       (PRD.userStories prd)).

Definition claimed (prd : PRD.t) : list UserStory.t :=
  List.filter
    (fun s => negb (UserStory.passes s) && truthy (UserStory.claimed_by s))
    (PRD.userStories prd).

Definition verifying (prd : PRD.t) : list UserStory.t :=
  List.filter
    (fun s => UserStory.passes s && negb (UserStory.is_verified s))
    (PRD.userStories prd).

Definition done (prd : PRD.t) : list UserStory.t :=
  List.filter
    (fun s => UserStory.passes s && UserStory.is_verified s)
    (PRD.userStories prd).

(** Backward compatibility: when no story has the verified field, every
    passing story is done. *)
Definition hasVerifiers (prd : PRD.t) : bool :=
  existsb UserStory.has_verified (PRD.userStories prd).

Definition effectiveDone (prd : PRD.t) : list UserStory.t :=
  if hasVerifiers prd then done prd
  else List.filter UserStory.passes (PRD.userStories prd).

Definition effectiveVerifying (prd : PRD.t) : list UserStory.t :=
  if hasVerifiers prd then verifying prd else [].

(** [prdReadTool.handler]: [None] is the document that reports that no
    prd.json was found, returned for a falsy value; the groups are
    filtered out of the stories of any other value. *)
Definition handler (w : World) (project_dir : string) : result (option Board.t) :=
  prd ← readPrd w project_dir;
  prd ← ifLedger prd;
  match prd with
  | None => mret None
  | Some prd =>
      mret (Some (Board.mk (available prd) (claimed prd)
                    (effectiveVerifying prd) (effectiveDone prd)))
  end.

End PrdRead.

(** ** The status tool *)

Module StatusResult.
Record t : Type := mk {
  project : string;
  latest_commit : string;
  stop_requested : bool;
  containers : list ContainerInfo.t;
  stories : Board.t;
  progress : string;
  recent_commits : list string
}.
End StatusResult.


Module Status.

(** Same lookup as [PrdRead.readPrd]. *)
Definition readPrdFromBareRepo (w : World) (projectDir : string)
  : result json :=
  let bareRepo := projectDir +:+ "/.ralph/repo.git" in
  match
    try_catch
      (_ ← stat w bareRepo;
       ref ← Exec.resolveLatestPrdRef w bareRepo;
       res ← Exec.exec w ["git"; "show"; ref +:+ ":prd.json"] (Some bareRepo);
       if ExecResult.success res
       then Some <$> JSON_parse w (ExecResult.stdout res)
       else mret None)
      (mret None)
  with
  | Returns (Some v) => mret v
  | _ =>
      try_catch
        (text ← readTextFile w (projectDir +:+ "/prd.json");
         JSON_parse w text)
        (mret Falsy)
  end.

(** The body of the loop that sorts the stories into the four groups. *)
Definition pushStory (hasVerifiers : bool) (stories : Board.t)
    (story : UserStory.t) : Board.t :=
  if UserStory.passes story
     && (UserStory.is_verified story || negb hasVerifiers)
  then Board.mk (Board.available stories) (Board.claimed stories)
         (Board.verifying stories) (Board.done stories ++ [story])
  else if UserStory.passes story && hasVerifiers
          && negb (UserStory.is_verified story)
  then Board.mk (Board.available stories) (Board.claimed stories)
         (Board.verifying stories ++ [story]) (Board.done stories)
  else if truthy (UserStory.claimed_by story)
  then Board.mk (Board.available stories) (Board.claimed stories ++ [story])
         (Board.verifying stories) (Board.done stories)
  else Board.mk (Board.available stories ++ [story]) (Board.claimed stories)
         (Board.verifying stories) (Board.done stories).

(** The story board of [statusTool.handler]. *)
Definition stories (prdResult : option PRD.t) : Board.t :=
  match prdResult with
  | None => Board.mk [] [] [] []
  | Some prdResult =>
      let hasVerifiers :=
        existsb UserStory.has_verified (PRD.userStories prdResult) in
      foldl (pushStory hasVerifiers) (Board.mk [] [] [] [])
            (PRD.userStories prdResult)
  end.

(** The [progress] line of the story board. *)
Definition progress (prdResult : PRD.t) (hasVerifiers : bool) : string :=
  let builtCount :=
    length (List.filter UserStory.passes (PRD.userStories prdResult)) in
  let total := length (PRD.userStories prdResult) in
  if hasVerifiers
  then
    let verifiedCount :=
      length (List.filter
                (fun s => UserStory.passes s && UserStory.is_verified s)
                (PRD.userStories prdResult)) in
    JS.toString (Z.of_nat verifiedCount) +:+ "/" +:+ JS.toString (Z.of_nat total)
    +:+ " verified, " +:+ JS.toString (Z.of_nat builtCount) +:+ "/"
    +:+ JS.toString (Z.of_nat total) +:+ " built"
  else
    JS.toString (Z.of_nat builtCount) +:+ "/" +:+ JS.toString (Z.of_nat total)
    +:+ " stories complete".

Definition progressOf (prdResult : option PRD.t) : string :=
  match prdResult with
  | None => "unknown"
  | Some prdResult =>
      progress prdResult
        (existsb UserStory.has_verified (PRD.userStories prdResult))
  end.

Definition recentAll : list string := ["git"; "log"; "--oneline"; "-10"; "--all"].
Definition recentHere : list string := ["git"; "log"; "--oneline"; "-10"].

(** [statusTool.handler]; the result is the document before
    [JSON.stringify], with the progress line beside the four groups.  The
    command line of docker ps is the one of the delta tool.  The board is
    built from the stories of a truthy [prdResult]; reading them throws on
    a value that has none. *)
Definition handler (w : World) (project_dir : string) : result StatusResult.t :=
  let bareRepo := project_dir +:+ "/.ralph/repo.git" in
  dockerResult ← Exec.exec w Changes.dockerPs None;
  prdResult ← readPrdFromBareRepo w project_dir;
  commitsResult ←
    try_catch (Exec.exec w recentAll (Some bareRepo))
              (Exec.exec w recentHere (Some project_dir));
  latestCommit ← catch (Exec.resolveLatestCommit w bareRepo) "unknown";
  let stopRequested :=
    match stat w (project_dir +:+ "/.ralph/stop_requested") with
    | Returns st => 0 <? FileInfo.size st
    | Throws => false
    end in
  let containers :=
    Changes.parseContainerLine <$>
      List.filter Changes.nonEmpty
        (JS.split "010" (JS.trim (ExecResult.stdout dockerResult))) in
  prdResult ← ifLedger prdResult;
  let commits :=
    if ExecResult.success commitsResult
    then List.filter Changes.nonEmpty
           (JS.split "010" (JS.trim (ExecResult.stdout commitsResult)))
    else [] in
  mret (StatusResult.mk project_dir latestCommit stopRequested containers
          (stories prdResult) (progressOf prdResult) commits).


End Status.

(** ** tools/prd-update.ts *)

Module StoryInput.
(** The [story] argument: an id and the optional fields of the schema. *)
Record t : Type := mk {
  id : string;
  title : option string;
  description : option string;
  acceptanceCriteria : option (list string);
  priority : option Z;
  notes : option string;
  verified : option bool;
  verified_by : nullable string;
  verified_at : nullable string;
  verification_notes : nullable string
}.
End StoryInput.

Module UpdateResponse.
Inductive t : Type :=
  | Error (error : string) (stderr : option string)
  | Success (story_id : string) (commit_message : string)
            (total_stories : nat).
End UpdateResponse.

Module Action.
Inductive t : Type := add_story | edit_story | remove_story.
End Action.


Module PrdUpdate.

(** [Math.max(0, ...xs)] *)
Definition maxPriority (stories : list UserStory.t) : Z :=
  foldr Z.max 0 (UserStory.priority <$> stories).

(** The case [add_story] of the switch: an error message, or the ledger
    with the new story pushed and the commit message. *)
Definition addStory (prd : PRD.t) (story : StoryInput.t)
  : string + (PRD.t * string) :=
  match StoryInput.title story, StoryInput.description story,
        StoryInput.acceptanceCriteria story with
  | Some title, Some description, Some acceptanceCriteria =>
      if String.eqb title "" || String.eqb description ""
      then inl "add_story requires title, description, and acceptanceCriteria"
      else
        match List.find
                (fun s => String.eqb (UserStory.id s) (StoryInput.id story))
                (PRD.userStories prd) with
        | Some _ => inl ("Story " +:+ StoryInput.id story +:+ " already exists")
        | None =>
            let newStory :=
              UserStory.mk
                (StoryInput.id story) title description acceptanceCriteria
                (default (JS.succ (maxPriority (PRD.userStories prd)))
                         (StoryInput.priority story))
                false
                (Some (default "" (StoryInput.notes story)))
                Null Null (Some false) Null Null Null in
            inr (PRD.mk (PRD.project prd) (PRD.branchName prd)
                   (PRD.description prd)
                   (PRD.userStories prd ++ [newStory]),
                 "[mcp] Add story " +:+ StoryInput.id story +:+ ": " +:+ title)
        end
  | _, _, _ =>
      inl "add_story requires title, description, and acceptanceCriteria"
  end.

(** The test on the fields of the argument that opens the case
    [add_story]. *)
Definition missingFields (story : StoryInput.t) : bool :=
  negb (truthy_opt (StoryInput.title story))
  || negb (truthy_opt (StoryInput.description story))
  || match StoryInput.acceptanceCriteria story with
     | Some _ => false
     | None => true
     end.

(** The case [add_story] on the value parsed from HEAD: the fields of the
    argument are tested first, then the stories of the ledger are read. *)
Definition addStoryParsed (v : json) (story : StoryInput.t)
  : result (string + (PRD.t * string)) :=
  if missingFields story
  then mret (inl "add_story requires title, description, and acceptanceCriteria")
  else prd ← storiesOf v; mret (addStory prd story).


(** [stories.findIndex(s => s.id === id)] together with the story found
    there; [None] is the index -1. *)
Fixpoint findStory (id : string) (stories : list UserStory.t)
  : option (nat * UserStory.t) :=
  match stories with
  | [] => None
  | s :: stories =>
      if String.eqb (UserStory.id s) id then Some (O, s)
      else (fun '(i, found) => (S i, found)) <$> findStory id stories
  end.

(** The assignments of the case [edit_story]: a field of the argument that
    is not undefined replaces the field of the story. *)
Definition applyEdit (existing : UserStory.t) (story : StoryInput.t)
  : UserStory.t :=
  let pick {A} (new : nullable A) (old : nullable A) : nullable A :=
    match new with
    | Undefined => old
    | _ => new
    end in
  UserStory.mk
    (UserStory.id existing)
    (default (UserStory.title existing) (StoryInput.title story))
    (default (UserStory.description existing) (StoryInput.description story))
    (default (UserStory.acceptanceCriteria existing)
             (StoryInput.acceptanceCriteria story))
    (default (UserStory.priority existing) (StoryInput.priority story))
    (UserStory.passes existing)
    (match StoryInput.notes story with
     | Some notes => Some notes
     | None => UserStory.notes existing
     end)
    (UserStory.claimed_by existing)
    (UserStory.claimed_at existing)
    (match StoryInput.verified story with
     | Some verified => Some verified
     | None => UserStory.verified existing
     end)
    (pick (StoryInput.verified_by story) (UserStory.verified_by existing))
    (pick (StoryInput.verified_at story) (UserStory.verified_at existing))
    (pick (StoryInput.verification_notes story)
          (UserStory.verification_notes existing)).

Definition withStories (prd : PRD.t) (stories : list UserStory.t) : PRD.t :=
  PRD.mk (PRD.project prd) (PRD.branchName prd) (PRD.description prd) stories.

(** The case [edit_story]; [keys] is [Object.keys(story)]. *)
Definition editStory (prd : PRD.t) (story : StoryInput.t) (keys : list string)
  : string + (PRD.t * string) :=
  match findStory (StoryInput.id story) (PRD.userStories prd) with
  | None => inl ("Story " +:+ StoryInput.id story +:+ " not found")
  | Some (idx, existing) =>
      let fields := List.filter (fun k => negb (String.eqb k "id")) keys in
      inr (withStories prd (<[idx := applyEdit existing story]> (PRD.userStories prd)),
           "[mcp] Edit story " +:+ StoryInput.id story +:+ ": update "
           +:+ JS.join ", " fields)
  end.

(** The case [remove_story]. *)
Definition removeStory (prd : PRD.t) (story : StoryInput.t)
  : string + (PRD.t * string) :=
  match findStory (StoryInput.id story) (PRD.userStories prd) with
  | None => inl ("Story " +:+ StoryInput.id story +:+ " not found")
  | Some (idx, removed) =>
      inr (withStories prd (delete idx (PRD.userStories prd)),
           "[mcp] Remove story " +:+ StoryInput.id story +:+ ": "
           +:+ UserStory.title removed)
  end.

(** The switch on the action, on the value parsed from HEAD: each case
    reads the stories of the ledger, [add_story] after the test on the
    fields of the argument. *)
Definition applyAction (action : Action.t) (v : json) (story : StoryInput.t)
    (keys : list string) : result (string + (PRD.t * string)) :=
  match action with
  | Action.add_story => addStoryParsed v story
  | Action.edit_story => prd ← storiesOf v; mret (editStory prd story keys)
  | Action.remove_story => prd ← storiesOf v; mret (removeStory prd story)
  end.

(** [prdUpdateTool.handler]: the response, and the calls of
    [Deno.writeTextFile] it made (path and text).  What the git processes
    write is not recorded.  The response echoes the action it was
    given. *)
Definition handler (w : World) (project_dir : string) (action : Action.t)
    (story : StoryInput.t) (keys : list string)
  : result (UpdateResponse.t * list (string * string)) :=
  let bareRepo := project_dir +:+ "/.ralph/repo.git" in
  match stat w bareRepo with
  | Throws =>
      mret (UpdateResponse.Error
              "No bare repo found at .ralph/repo.git — has ralph been run on this project?"
              None, [])
  | Returns _ =>
      showResult ← Exec.exec w ["git"; "show"; "HEAD:prd.json"] (Some bareRepo);
      if negb (ExecResult.success showResult)
      then mret (UpdateResponse.Error "Failed to read prd.json from bare repo"
                   (Some (JS.trim (ExecResult.stderr showResult))), [])
      else
        match JSON_parse w (ExecResult.stdout showResult) with
        | Throws => mret (UpdateResponse.Error "Failed to parse prd.json" None, [])
        | Returns parsed =>
            headResult ← Exec.exec w ["git"; "symbolic-ref"; "HEAD"] (Some bareRepo);
            let branch :=
              if ExecResult.success headResult
              then JS.replace "refs/heads/" "" (JS.trim (ExecResult.stdout headResult))
              else "main" in
            applied ← applyAction action parsed story keys;
            match applied with
            | inl error => mret (UpdateResponse.Error error None, [])
            | inr (prd, commitMessage) =>
                tmpDir ← makeTempDir w;
                cloneResult ←
                  Exec.exec w ["git"; "clone"; "--branch"; branch; bareRepo;
                               tmpDir +:+ "/work"] None;
                if negb (ExecResult.success cloneResult)
                then mret (UpdateResponse.Error "Failed to clone bare repo for update"
                             (Some (JS.trim (ExecResult.stderr cloneResult))), [])
                else
                  let workDir := tmpDir +:+ "/work" in
                  let text := JSON_stringify w prd +:+ String "010" "" in
                  _ ← writeTextFile w (workDir +:+ "/prd.json") text;
                  let written := [(workDir +:+ "/prd.json", text)] in
                  _ ← Exec.exec w ["git"; "config"; "user.email"; "ralph-mcp@localhost"]
                        (Some workDir);
                  _ ← Exec.exec w ["git"; "config"; "user.name"; "ralph-mcp"]
                        (Some workDir);
                  _ ← Exec.exec w ["git"; "add"; "prd.json"] (Some workDir);
                  commitResult ←
                    Exec.exec w ["git"; "commit"; "-m"; commitMessage] (Some workDir);
                  if negb (ExecResult.success commitResult)
                  then mret (UpdateResponse.Error "Failed to commit prd.json update"
                               (Some (JS.trim (ExecResult.stderr commitResult))),
                             written)
                  else
                    pushResult ←
                      Exec.exec w ["git"; "push"; "origin"; "HEAD"] (Some workDir);
                    if negb (ExecResult.success pushResult)
                    then mret (UpdateResponse.Error "Failed to push update to bare repo"
                                 (Some (JS.trim (ExecResult.stderr pushResult))),
                               written)
                    else mret (UpdateResponse.Success (StoryInput.id story)
                                 commitMessage (length (PRD.userStories prd)),
                               written)
            end
        end
  end.


End PrdUpdate.

(** ** tools/logs.ts *)

Module LogFile.
Record t : Type := mk {
  file : string;
  total_lines : Z;
  showing_last : Z;
  content : string
}.
End LogFile.

(** The three documents the tool returns. *)
Module LogsResponse.
Inductive t : Type :=
| NoDirectory (path : string)
| NoLogs (message : string)
| Logs (total_log_files showing : Z) (logs : list LogFile.t).
End LogsResponse.

Module Logs.

(** The test of the listing loop on one directory entry. *)
Definition wanted (agent_id : option string) (entry : DirEntry.t) : bool :=
  if DirEntry.isFile entry && JS.endsWith (DirEntry.name entry) ".log"
  then if truthy_opt agent_id
       then String.prefix (default "" agent_id) (DirEntry.name entry)
       else true
  else false.

Definition statFile (w : World) (logsDir name : string) : result NewFile.t :=
  st ← stat w (logsDir +:+ "/" +:+ name);
  mret (NewFile.mk name (default 0 (FileInfo.mtime st))).

(** The end of one file; [lines] is a whole number. *)
Definition readTail (w : World) (logsDir : string) (lines : Z) (f : NewFile.t)
  : result LogFile.t :=
  content ← readTextFile w (logsDir +:+ "/" +:+ NewFile.name f);
  let allLines := JS.split "010" content in
  let tail := JS.join (String "010" "") (JS.slice (- lines) allLines) in
  mret (LogFile.mk (NewFile.name f) (Z.of_nat (length allLines))
          (Z.min lines (Z.of_nat (length allLines))) tail).

Definition maxFiles : nat := 5.

(** [logsTool.handler]; the result is the document before
    [JSON.stringify]. *)
Definition handler (w : World) (project_dir : string)
    (agent_id : option string) (lines : option Z) : result LogsResponse.t :=
  let logsDir := project_dir +:+ "/agent_logs" in
  let lines := default 50 lines in
  match readDir w logsDir with
  | Throws => mret (LogsResponse.NoDirectory logsDir)
  | Returns entries =>
      let logFiles := DirEntry.name <$> List.filter (wanted agent_id) entries in
      if (length logFiles =? 0)%nat
      then mret (LogsResponse.NoLogs
                   (if truthy_opt agent_id
                    then "No logs found for agent '" +:+ default "" agent_id
                         +:+ "'"
                    else "No log files found"))
      else
        fileStats ← mapM (statFile w logsDir) logFiles;
        let fileStats := JS.sort Changes.byMtimeDesc fileStats in
        results ← mapM (readTail w logsDir lines) (take maxFiles fileStats);
        mret (LogsResponse.Logs (Z.of_nat (length fileStats))
                (Z.of_nat (length results)) results)
  end.

End Logs.


(** ** A model of the shared repository

    The program reaches the repository through the git command lines
    below, all run inside the bare repository.  This model of a
    repository answers them: a commit graph, the refs under refs/ in the
    order of their names, and the branch HEAD names.  It serves to
    build example worlds in which the functions above can be run; the
    properties of the program are stated over any [World].

    The answers follow git in these points:
    - the log is a walk from the tips: the newest commit of a list kept in
      the order of the commit times is taken off, and its parents are put
      on the list, each after the commits that are at least as recent;
    - the log of a path leaves out a commit that has the file as one of its
      parents has it, and follows only the first such parent;
    - a range leaves out what is reachable from its left end;
    - with no commit under HEAD, [rev-parse HEAD] prints the word HEAD and
      succeeds (in a bare repository HEAD is also the name of a file) and
      the other commands that name HEAD fail.
    A revision is HEAD or a full hash, and a hash is abbreviated to its
    first seven characters. *)

Module Commit.
Record t : Type := mk {
  hash : string;
  parents : list string;
  time : Z;                 (* committer date, seconds *)
  subject : string;
  prd : option string       (* prd.json in the tree of the commit *)
}.
End Commit.

Module Repo.
Record t : Type := mk {
  commits : list Commit.t;
  refs : list (string * string);   (* ref name, commit hash *)
  branch : string                  (* HEAD is the ref refs/heads/<branch> *)
}.

(** The commit HEAD resolves to; there is none while the branch has no
    commit. *)
Definition HEAD (r : t) : option string :=
  snd <$> List.find (fun '(name, _) => String.eqb name ("refs/heads/" +:+ branch r))
            (refs r).
End Repo.

Module Git.

Definition lookup (r : Repo.t) (h : string) : option Commit.t :=
  List.find (fun c => String.eqb (Commit.hash c) h) (Repo.commits r).

Definition memb (h : string) (hs : list string) : bool :=
  existsb (String.eqb h) hs.

(** Put a commit on the list of the commits to visit, after those that
    are at least as recent. *)
Fixpoint insertByDate (c : Commit.t) (queue : list Commit.t) : list Commit.t :=
  match queue with
  | [] => [c]
  | d :: queue' =>
      if Commit.time d <? Commit.time c then c :: queue
      else d :: insertByDate c queue'
  end.

(** The state of a walk: the commits to visit and the hashes seen. *)
Definition visit (r : Repo.t) (st : list Commit.t * list string) (h : string)
  : list Commit.t * list string :=
  if memb h st.2 then st
  else
    match lookup r h with
    | Some c => (insertByDate c st.1, h :: st.2)
    | None => st
    end.

(** The walk: [follow] gives the parents of a commit that are walked to.
    The fuel is the number of commits. *)
Fixpoint walk (fuel : nat) (r : Repo.t) (follow : Commit.t -> list string)
    (st : list Commit.t * list string) : list Commit.t :=
  match fuel, st.1 with
  | S fuel, c :: queue =>
      c :: walk fuel r follow (foldl (visit r) (queue, st.2) (follow c))
  | _, _ => []
  end.

Definition walkFrom (r : Repo.t) (follow : Commit.t -> list string)
    (tips : list string) : list Commit.t :=
  walk (length (Repo.commits r)) r follow (foldl (visit r) ([], []) tips).

(** The commit and its ancestors; the fuel bounds the depth of the graph. *)
Fixpoint ancestors (fuel : nat) (r : Repo.t) (h : string) : list string :=
  match fuel with
  | O => []
  | S fuel =>
      match lookup r h with
      | None => []
      | Some c => h :: concat (ancestors fuel r <$> Commit.parents c)
      end
  end.

Definition reachable (r : Repo.t) (tips : list string) : list string :=
  concat (ancestors (length (Repo.commits r)) r <$> tips).

(** [--all]: every ref, then HEAD. *)
Definition allTips (r : Repo.t) : list string :=
  (snd <$> Repo.refs r) ++ from_option (fun h => [h]) [] (Repo.HEAD r).

(** The commits reachable from [tips] and from none of [excluded], in log
    order. *)
Definition log (r : Repo.t) (tips excluded : list string) : list Commit.t :=
  let drop := reachable r excluded in
  List.filter (fun c => negb (memb (Commit.hash c) drop))
    (walkFrom r Commit.parents tips).

Definition resolveRev (r : Repo.t) (rev : string) : option Commit.t :=
  if String.eqb rev "HEAD"
  then h ← Repo.HEAD r; lookup r h
  else lookup r rev.

(** The commit has prd.json as its parent [p] has it. *)
Definition sameAsParent (r : Repo.t) (c : Commit.t) (p : string) : bool :=
  bool_decide ((Commit.prd <$> lookup r p) = Some (Commit.prd c)).

(** The commit changes prd.json with respect to each of its parents. *)
Definition touchesPrd (r : Repo.t) (c : Commit.t) : bool :=
  match Commit.parents c with
  | [] => bool_decide (Commit.prd c ≠ None)
  | ps => forallb (fun p => negb (sameAsParent r c p)) ps
  end.

(** The parents the log of prd.json walks to. *)
Definition followPrd (r : Repo.t) (c : Commit.t) : list string :=
  match List.filter (sameAsParent r c) (Commit.parents c) with
  | p :: _ => [p]
  | [] => Commit.parents c
  end.

(** The log of prd.json over all refs. *)
Definition logPrd (r : Repo.t) : list Commit.t :=
  List.filter (touchesPrd r) (walkFrom r (followPrd r) (allTips r)).

Definition lines (ls : list string) : string :=
  foldr (fun l out => l +:+ String "010" out) "" ls.

Definition ok (out : string) : ExecResult.t := ExecResult.mk true out "" 0.
Definition fatal (err : string) : ExecResult.t := ExecResult.mk false "" err 128.

Definition showZ (z : Z) : string :=
  DecimalString.NilZero.string_of_int (Z.to_int z).

(** [Some rev] when [arg] is [rev] followed by [suffix]. *)
Definition stripSuffix (suffix arg : string) : option string :=
  if JS.endsWith arg suffix
  then Some (String.substring 0 (String.length arg - String.length suffix) arg)
  else None.

Definition same (a b : list string) : bool := bool_decide (a = b).

Definition oneline (c : Commit.t) : string :=
  JS.substring (Commit.hash c) 0 7 +:+ " " +:+ Commit.subject c.

(** The answer of git, run inside the repository, to a command line. *)
Definition run (r : Repo.t) (cmd : list string) : ExecResult.t :=
  if same cmd ["git"; "rev-parse"; "HEAD"] then
    match resolveRev r "HEAD" with
    | Some c => ok (lines [Commit.hash c])
    | None => ok (lines ["HEAD"])
    end
  else if same cmd ["git"; "rev-list"; "--max-parents=0"; "HEAD"] then
    match resolveRev r "HEAD" with
    | Some c =>
        ok (lines (Commit.hash <$>
                     List.filter (fun c => bool_decide (Commit.parents c = []))
                       (log r [Commit.hash c] [])))
    | None => ExecResult.mk false "" "usage: git rev-list" 129
    end
  else if same cmd ["git"; "log"; "--all"; "-1"; "--format=%H"; "--"; "prd.json"] then
    ok (lines (Commit.hash <$> take 1 (logPrd r)))
  else if same cmd ["git"; "log"; "--all"; "-1"; "--format=%H"] then
    ok (lines (Commit.hash <$> take 1 (log r (allTips r) [])))
  else if same cmd ["git"; "log"; "--oneline"; "-10"; "--all"] then
    ok (lines (oneline <$> take 10 (log r (allTips r) [])))
  else if same cmd ["git"; "symbolic-ref"; "HEAD"] then
    ok (lines ["refs/heads/" +:+ Repo.branch r])
  else
    match cmd with
    | [_; _; _; _; rev] =>
        if same (take 4 cmd) ["git"; "show"; "-s"; "--format=%ct"] then
          match resolveRev r rev with
          | Some c => ok (lines [showZ (Commit.time c)])
          | None => fatal "fatal: bad object"
          end
        else if same (take 3 cmd) ["git"; "log"; "--oneline"]
                && String.eqb rev "--all" then
          match stripSuffix "..HEAD" (default "" (cmd !! 3%nat)) with
          | Some since =>
              match resolveRev r since, resolveRev r "HEAD" with
              | Some c, Some h =>
                  ok (lines (oneline <$>
                               log r (Commit.hash h :: allTips r) [Commit.hash c]))
              | _, _ => fatal "fatal: bad revision"
              end
          | None => fatal "fatal: bad revision"
          end
        else fatal "usage"
    | [_; _; arg] =>
        if same (take 2 cmd) ["git"; "show"] then
          match stripSuffix ":prd.json" arg with
          | Some rev =>
              match resolveRev r rev with
              | Some c =>
                  match Commit.prd c with
                  | Some text => ok text
                  | None => fatal "fatal: path 'prd.json' does not exist"
                  end
              | None => fatal "fatal: invalid object name"
              end
          | None => fatal "fatal: invalid object name"
          end
        else fatal "usage"
    | _ => fatal "usage"
    end.

(** A string without white space. *)
Definition noSpace (s : string) : bool :=
  forallb (fun c => negb (Ascii.is_space c)) (String.list_ascii_of_string s).


End Git.

(** ** Worlds built from a machine: a repository, a disk, a docker daemon *)

Module File.
Record t : Type := mk { name : string; mtime : option Z; content : string }.
End File.

Module Machine.
Record t : Type := mk {
  repoDir : string;                       (* where the bare repository is *)
  repo : option Repo.t;                   (* None: nothing at [repoDir] *)
  dirs : list (string * list File.t);     (* the directories and their files *)
  docker : option string;                 (* what docker ps prints; None: no docker *)
  clock : Z;
  ledgers : list (string * PRD.t)         (* the JSON texts that parse, and to what *)
}.
End Machine.

Module Sim.

Definition isCmd (prog : string) (cmd : list string) : bool :=
  match cmd with
  | p :: _ => String.eqb p prog
  | [] => false
  end.

(** git runs in the repository; in another directory of the machine it
    fails, as there is no repository there; it cannot be spawned in a
    directory that does not exist.  A git run without a working directory
    (the clone of the update tool) is not simulated. *)
Definition spawn (m : Machine.t) (cmd : list string) (cwd : option string)
  : result ExecResult.t :=
  if isCmd "git" cmd then
    match cwd with
    | Some d =>
        match Machine.repo m with
        | Some r =>
            if String.eqb d (Machine.repoDir m) then Returns (Git.run r cmd)
            else if existsb (fun '(dir, _) => String.eqb dir d) (Machine.dirs m)
            then Returns (Git.fatal "fatal: not a git repository")
            else Throws
        | None =>
            if existsb (fun '(dir, _) => String.eqb dir d) (Machine.dirs m)
            then Returns (Git.fatal "fatal: not a git repository")
            else Throws
        end
    | None => Throws
    end
  else if isCmd "docker" cmd then
    match Machine.docker m with
    | Some out => Returns (Git.ok out)
    | None => Throws
    end
  else Throws.

Definition findFile (m : Machine.t) (path : string) : option File.t :=
  List.find (fun f => true)
    (concat ((fun '(d, fs) =>
                List.filter
                  (fun f => String.eqb (d +:+ "/" +:+ File.name f) path) fs)
             <$> Machine.dirs m)).

Definition stat (m : Machine.t) (path : string) : result FileInfo.t :=
  match findFile m path with
  | Some f =>
      Returns (FileInfo.mk (File.mtime f)
                 (Z.of_nat (String.length (File.content f))))
  | None =>
      if String.eqb path (Machine.repoDir m) && bool_decide (Machine.repo m ≠ None)
      then Returns (FileInfo.mk None 0)
      else Throws
  end.

Definition readDir (m : Machine.t) (dir : string) : result (list DirEntry.t) :=
  match List.find (fun '(d, _) => String.eqb d dir) (Machine.dirs m) with
  | Some (_, fs) => Returns ((fun f => DirEntry.mk (File.name f) true) <$> fs)
  | None => Throws
  end.

Definition readTextFile (m : Machine.t) (path : string) : result string :=
  match findFile m path with
  | Some f => Returns (File.content f)
  | None => Throws
  end.

Definition parse (m : Machine.t) (text : string) : result json :=
  if String.eqb text "null" then Returns Falsy
  else if String.eqb text "{}" then Returns NoStories
  else
    match List.find (fun '(t, _) => String.eqb t text) (Machine.ledgers m) with
    | Some (_, prd) => Returns (Ledger prd)
    | None => Throws
    end.

(** The world of a machine.  The write path is not simulated: creating
    the temporary directory rejects. *)
Definition world (m : Machine.t) : World :=
  Build_World (spawn m) (stat m) (readDir m) (readTextFile m)
    (Machine.clock m) (parse m) (fun prd => PRD.project prd) Throws
    (fun _ _ => Throws).

End Sim.

(** ** Example data *)

Module Ex.

Definition story (id : string) (passes : bool) (claimed_by : nullable string)
    (verified : option bool) : UserStory.t :=
  UserStory.mk id ("Story " +:+ id) "" [] 1 passes None claimed_by Undefined
    verified Undefined Undefined Undefined.

Definition c0 : string := "c0a1b2c3d4e5f60718293a4b5c6d7e8f90a1b2c3".
Definition c1 : string := "c1f9e8d7c6b5a493827160f5e4d3c2b1a0f9e8d7".

Definition ledger0 : PRD.t :=
  PRD.mk "demo" None None [story "US-1" false Null None].
Definition ledger1 : PRD.t :=
  PRD.mk "demo" None None [story "US-1" false (Value "agent-1") None].

(** The default branch holds the first commit; an agent has pushed one
    commit to its working branch.  HEAD is the default branch. *)
Definition repo : Repo.t :=
  Repo.mk
    [Commit.mk c1 [c0] 1700000100 "US-1: claim" (Some "prd.json at c1");
     Commit.mk c0 [] 1700000000 "Initial commit" (Some "prd.json at c0")]
    [("refs/heads/main", c0); ("refs/heads/ralph/work", c1)]
    "main".

Definition machine : Machine.t :=
  Machine.mk "/p/.ralph/repo.git" (Some repo) [] (Some "") 1700000200000
    [("prd.json at c0", ledger0); ("prd.json at c1", ledger1)].

(** A project directory without a repository and without docker. *)
Definition bare : Machine.t :=
  Machine.mk "/p/.ralph/repo.git" None [] None 1700000200000 [].

End Ex.

(** ** More example data *)

Module Ex2.

(** A ledger that uses verification: US-1 is built and waits for its
    verifier. *)
Definition built : UserStory.t := Ex.story "US-1" true Null (Some false).
Definition verifyingLedger : PRD.t := PRD.mk "demo" None None [built].


(** US-2 arrives already built, in a ledger that uses verification. *)
Definition builtNew : UserStory.t := Ex.story "US-2" true Null (Some false).
Definition ledgerBuilt : PRD.t :=
  PRD.mk "demo" None None [Ex.story "US-1" false Null None; builtNew].

Definition us2 : UserStory.t := Ex.story "US-2" false Null None.
Definition ledger2 : PRD.t :=
  PRD.mk "demo" None None [Ex.story "US-1" false Null None; us2].

Definition newStory : StoryInput.t :=
  StoryInput.mk "US-2" (Some "Export grades") (Some "Export the grades as CSV")
    (Some ["a CSV file is written"]) None None None Undefined Undefined Undefined.


End Ex2.

(** ** A log directory *)

Module ExLogs.

Definition text (n : string) : string :=
  "start " +:+ n +:+ String "010" ("iteration 1" +:+ String "010" "done").

(** Eight logs written after the reference time 1000, one written before
    it, and a file that is not a log. *)
Definition files : list File.t :=
  [File.mk "agent-1.log" (Some 1010) (text "1");
   File.mk "agent-2.log" (Some 1080) (text "2");
   File.mk "agent-3.log" (Some 1030) (text "3");
   File.mk "agent-4.log" (Some 1070) (text "4");
   File.mk "old.log" (Some 900) (text "old");
   File.mk "agent-5.log" (Some 1050) (text "5");
   File.mk "agent-6.log" (Some 1060) (text "6");
   File.mk "notes.txt" (Some 1090) "notes";
   File.mk "agent-7.log" (Some 1040) (text "7");
   File.mk "agent-8.log" (Some 1020) (text "8")].

Definition machine : Machine.t :=
  Machine.mk "/p/.ralph/repo.git" None [("/p/agent_logs", files)] None 2000 [].

Definition mtimeOf (name : string) : Z :=
  from_option (fun f => default 0 (File.mtime f)) 0
    (List.find (fun f => String.eqb (File.name f) name) files).

Definition contentOf (name : string) : string :=
  from_option File.content ""
    (List.find (fun f => String.eqb (File.name f) name) files).

End ExLogs.

(** ** Machines for the other tools *)

Module ExMore.

(** The example repository, with a stop requested. *)
Definition stopFlagged : Machine.t :=
  Machine.mk "/p/.ralph/repo.git" (Some Ex.repo)
    [("/p/.ralph", [File.mk "stop_requested" None "1"])] (Some "")
    1700000200000
    [("prd.json at c0", Ex.ledger0); ("prd.json at c1", Ex.ledger1)].

Definition us3 : StoryInput.t :=
  StoryInput.mk "US-3" (Some "Export grades") (Some "Export the grades as CSV")
    (Some ["a CSV file is written"]) None None None Undefined Undefined Undefined.

Definition justId (id : string) : StoryInput.t :=
  StoryInput.mk id None None None None None None Undefined Undefined Undefined.


(** A log directory that can be listed, with a log that cannot be
    stat'ed. *)
Definition unstatable : World :=
  Build_World (fun _ _ => Throws) (fun _ => Throws)
    (fun _ => Returns [DirEntry.mk "agent-1.log" true])
    (fun _ => Returns "line") 0 (fun _ => Throws)
    (fun prd => PRD.project prd) Throws (fun _ _ => Throws).

(** The example repository with two workers, one up for two minutes and
    one up for three days. *)
Definition withWorkers : Machine.t :=
  Machine.mk "/p/.ralph/repo.git" (Some Ex.repo) []
    (Some ("ralph-agent-1" +:+ Changes.tab +:+ "Up 2 minutes" +:+ Changes.tab
           +:+ "2 minutes ago" +:+ String "010"
             ("ralph-agent-2" +:+ Changes.tab +:+ "Up 3 days" +:+ Changes.tab
              +:+ "3 days ago" +:+ String "010" "")))
    1700000200000
    [("prd.json at c0", Ex.ledger0); ("prd.json at c1", Ex.ledger1)].

(** The same, with a docker that prints a line of two fields. *)
Definition shortLine : Machine.t :=
  Machine.mk "/p/.ralph/repo.git" (Some Ex.repo) []
    (Some ("ralph-agent-1" +:+ Changes.tab +:+ "Up 2 minutes" +:+ String "010" ""))
    1700000200000
    [("prd.json at c0", Ex.ledger0); ("prd.json at c1", Ex.ledger1)].

(** A git that answers every command with the word [tree], and no
    docker. *)
Definition treeish : World :=
  Build_World
    (fun cmd _ => if Sim.isCmd "docker" cmd then Throws
                  else Returns (Git.ok "tree"))
    (fun _ => Throws) (fun _ => Throws) (fun _ => Throws) 0
    (fun _ => Throws) (fun prd => PRD.project prd) Throws (fun _ _ => Throws).

(** A repository whose only commit holds the text null as prd.json, with
    a ledger in the working directory. *)
Definition nullAtRef : Machine.t :=
  Machine.mk "/p/.ralph/repo.git"
    (Some (Repo.mk [Commit.mk Ex.c0 [] 1700000000 "Initial commit" (Some "null")]
             [("refs/heads/main", Ex.c0)] "main"))
    [("/p", [File.mk "prd.json" None "prd.json at c0"])] (Some "")
    1700000200000 [("prd.json at c0", Ex.ledger0)].

(** The same repository with the text {} as prd.json. *)
Definition emptyObjectAtRef : Machine.t :=
  Machine.mk "/p/.ralph/repo.git"
    (Some (Repo.mk [Commit.mk Ex.c0 [] 1700000000 "Initial commit" (Some "{}")]
             [("refs/heads/main", Ex.c0)] "main"))
    [("/p", [File.mk "prd.json" None "prd.json at c0"])] (Some "")
    1700000200000 [("prd.json at c0", Ex.ledger0)].

End ExMore.


(** ** The derived status in the words of the specification *)

Module Spec.

(** "Verification in use": some story of the snapshot has the verified
    field. *)
Definition verificationInUse (prd : PRD.t) : bool :=
  existsb UserStory.has_verified (PRD.userStories prd).

(** done if the completion flag is set and (verification is not in use
    or the story is verified); claimed by X if not done and a claimant is
    set; otherwise available. *)
Definition derivedStatus (inUse : bool) (s : UserStory.t) : string :=
  if UserStory.passes s && (negb inUse || UserStory.is_verified s)
  then "done"
  else if truthy (UserStory.claimed_by s)
       then "claimed by " +:+ Changes.template (UserStory.claimed_by s)
       else "available".

(** The ref of the ledger: what git prints, trimmed, for the first commit
    of its log of prd.json over all refs; the default head when git exits
    with a failure or prints nothing.  There is no ref when git cannot be
    run. *)
Definition resolvedRef (w : World) (bareRepo : string) : option string :=
  match spawn w ["git"; "log"; "--all"; "-1"; "--format=%H"; "--"; "prd.json"]
          (Some bareRepo) with
  | Returns res =>
      if ExecResult.success res
      then if String.eqb (JS.trim (ExecResult.stdout res)) ""
           then Some "HEAD"
           else Some (JS.trim (ExecResult.stdout res))
      else Some "HEAD"
  | Throws => None
  end.

(** The ledger file as it exists at a commit of the shared repository,
    parsed: there is none when git cannot be run there, when it exits with
    a failure (the commit has no such file), or when the text is not
    JSON. *)
Definition parsedAtCommit (w : World) (bareRepo commit : string) : option json :=
  match spawn w ["git"; "show"; commit +:+ ":prd.json"] (Some bareRepo) with
  | Returns res =>
      if ExecResult.success res
      then match JSON_parse w (ExecResult.stdout res) with
           | Returns v => Some v
           | Throws => None
           end
      else None
  | Throws => None
  end.

(** The reader at a given commit: absent (null) when there is nothing
    parsed there. *)
Definition ledgerAtCommit (w : World) (bareRepo commit : string) : json :=
  default Falsy (parsedAtCommit w bareRepo commit).

(** Step 1 of [readLedger]: what is parsed at the resolved ref inside the
    shared repository; it fails when the repository is absent, when there
    is no ref, and when nothing is parsed at the ref. *)
Definition ledgerAtRef (w : World) (projectDir : string) : option json :=
  let bareRepo := projectDir +:+ "/.ralph/repo.git" in
  match stat w bareRepo with
  | Returns _ =>
      match resolvedRef w bareRepo with
      | Some ref => parsedAtCommit w bareRepo ref
      | None => None
      end
  | Throws => None
  end.

(** Step 2: the plain copy on disk at the conventional path, parsed;
    absent (null) when it cannot be read or is not JSON. *)
Definition ledgerOnDisk (w : World) (projectDir : string) : json :=
  match readTextFile w (projectDir +:+ "/prd.json") with
  | Returns text =>
      match JSON_parse w text with
      | Returns v => v
      | Throws => Falsy
      end
  | Throws => Falsy
  end.

(** Step 1, and step 2 only if step 1 fails: what step 1 parsed is the
    answer, whatever it is. *)
Definition readLedger (w : World) (projectDir : string) : json :=
  match ledgerAtRef w projectDir with
  | Some v => v
  | None => ledgerOnDisk w projectDir
  end.

End Spec.

(** ** Auxiliary definitions for the proofs *)

(** What one story of the new ledger adds to the transitions. *)
Definition transitionOf (m : gmap string UserStory.t) (s : UserStory.t)
  : list StoryTransition.t :=
  Changes.diffStep m [] s.

(** The map from identifier to story that [diffStories] builds on top of [m]. *)
Definition indexById (l : list UserStory.t) (m : gmap string UserStory.t)
  : gmap string UserStory.t :=
  foldl (fun m s => <[UserStory.id s := s]> m) m l.


(** A directory entry that [scanNewLogs] looks at: a file with the suffix
    of a log. *)
Definition isLog (e : DirEntry.t) : bool :=
  DirEntry.isFile e && JS.endsWith (DirEntry.name e) ".log".

(** The qualifying files of a listing, given the modification time of each
    name: the logs modified after the reference time, in listing order. *)
Definition qualifying (mtime : string -> Z) (since : number)
    (entries : list DirEntry.t) : list NewFile.t :=
  (fun e => NewFile.mk (DirEntry.name e) (mtime (DirEntry.name e))) <$>
  List.filter (fun e => isLog e && JS.gt (Num (mtime (DirEntry.name e))) since)
    entries.

(** The summary of a qualifying file, given the text of each name. *)
Definition summaryOf (content : string -> string) (f : NewFile.t) : LogEntry.t :=
  LogEntry.mk (NewFile.name f) (Changes.tailLines (content (NewFile.name f))).

(** *** The lookups of [changesTool.handler], one by one *)

Definition rootCmd : list string :=
  ["git"; "rev-list"; "--max-parents=0"; "HEAD"].
Definition headCmd : list string := ["git"; "rev-parse"; "HEAD"].
Definition timeCmd (sinceCommit : string) : list string :=
  ["git"; "show"; "-s"; "--format=%ct"; sinceCommit].
Definition rangeCmd (sinceCommit : string) : list string :=
  ["git"; "log"; "--oneline"; sinceCommit +:+ "..HEAD"; "--all"].

(** The first line of the trimmed output of a command. *)
Definition firstLine (out : string) : string :=
  default "" (head (JS.split "010" (JS.trim out))).

(** [sinceCommit] as the handler resolves it. *)
Definition sinceCommitOf (w : World) (bareRepo : string)
    (since_commit : option string) : result string :=
  if truthy_opt since_commit then Returns (default "" since_commit)
  else
    match Exec.exec w rootCmd (Some bareRepo) with
    | Returns initResult =>
        Returns (if ExecResult.success initResult
                 then firstLine (ExecResult.stdout initResult)
                 else "HEAD")
    | Throws => Throws
    end.

(** [latestCommit] *)
Definition latestCommitOf (headResult : ExecResult.t) : string :=
  if ExecResult.success headResult
  then JS.trim (ExecResult.stdout headResult)
  else "unknown".

(** [sinceTimestamp] *)
Definition sinceTimestampOf (w : World) (bareRepo sinceCommit : string)
  : result number :=
  match Exec.exec w (timeCmd sinceCommit) (Some bareRepo) with
  | Returns res =>
      Returns (if ExecResult.success res
               then JS.mul (JS.parseInt (JS.trim (ExecResult.stdout res))) (Num 1000)
               else Num 0)
  | Throws => Throws
  end.

(** The lines of a command that ran, parsed one by one; nothing when it
    failed. *)
Definition parsedLines {A} (parse : string -> A) (res : ExecResult.t) : list A :=
  if ExecResult.success res
  then parse <$> List.filter Changes.nonEmpty
                   (JS.split "010" (JS.trim (ExecResult.stdout res)))
  else [].

(** [newCommits] *)
Definition newCommitsOf (w : World) (bareRepo sinceCommit : string)
  : list CommitLine.t :=
  match Exec.exec w (rangeCmd sinceCommit) (Some bareRepo) with
  | Returns res => parsedLines Changes.parseCommitLine res
  | Throws => []
  end.

(** [containers] *)
Definition containersOf (w : World) : list ContainerInfo.t :=
  match Exec.exec w Changes.dockerPs None with
  | Returns res => parsedLines Changes.parseContainerLine res
  | Throws => []
  end.

(** A string without the character [sep]. *)
Definition lacks (sep : ascii) (s : string) : bool :=
  forallb (fun c => negb (Ascii.eqb c sep)) (String.list_ascii_of_string s).

(** How often [sep] occurs in a string. *)
Definition occurrences (sep : ascii) (s : string) : nat :=
  length (List.filter (fun c => Ascii.eqb c sep) (String.list_ascii_of_string s)).


(** A list is in the order of [keyGe key] when the keys go down. *)
Definition keyGe {A} (key : A -> Z) (a b : A) : Prop := key b <= key a.

(** * Properties *)

(** ** The story diff *)

Section diff.

Implicit Types (s p : UserStory.t) (t : StoryTransition.t).
Implicit Types (m : gmap string UserStory.t).

Lemma diffStep_app m acc s :
  Changes.diffStep m acc s = acc ++ transitionOf m s.
Proof.
  unfold transitionOf, Changes.diffStep.
  destruct (negb _); simpl; [done | by rewrite app_nil_r].
Qed.

Lemma foldl_diffStep m acc l :
  foldl (Changes.diffStep m) acc l = acc ++ (l ≫= transitionOf m).
Proof.
  revert acc. induction l as [|s l IH]; intros acc; simpl.
  - by rewrite app_nil_r.
  - rewrite IH, diffStep_app. by rewrite <- app_assoc.
Qed.

Lemma diffStories_unfold old cur :
  Changes.diffStories old (Some cur) =
  PRD.userStories cur ≫=
    transitionOf (from_option (fun o => indexById (PRD.userStories o) ∅) ∅ old).
Proof.
  unfold Changes.diffStories. rewrite foldl_diffStep. by destruct old.
Qed.

Lemma indexById_None l m k :
  indexById l m !! k = None <->
  m !! k = None /\ Forall (fun p => UserStory.id p <> k) l.
Proof.
  revert m. induction l as [|p l IH]; intros m; simpl.
  - split; [intros H; split; [done | constructor] | by intros [H _]].
  - rewrite IH, lookup_insert_None, Forall_cons. tauto.
Qed.

Lemma storyStatus_not_new s : String.eqb "new" (Changes.storyStatus s) = false.
Proof.
  unfold Changes.storyStatus.
  destruct (UserStory.passes s); [reflexivity |].
  destruct (truthy _); reflexivity.
Qed.

Lemma elem_of_diffStories old cur t :
  t ∈ Changes.diffStories old (Some cur) ->
  exists s, s ∈ PRD.userStories cur /\
            StoryTransition.id t = UserStory.id s /\
            StoryTransition.title t = UserStory.title s /\
            StoryTransition.to t = Changes.storyStatus s.
Proof.
  rewrite diffStories_unfold.
  intros (s & Ht & Hs)%list_elem_of_bind.
  exists s. split; [done |].
  unfold transitionOf, Changes.diffStep in Ht.
  destruct (negb _); simpl in Ht.
  - apply list_elem_of_singleton in Ht as ->. done.
  - by apply elem_of_nil in Ht.
Qed.

(** A story of the current ledger whose identifier has no counterpart in
    the baseline (or when there is no baseline) gets a transition from the
    literal status "new" to the status [storyStatus] gives it; and without
    a current ledger there is no transition at all. *)
Lemma diffStories_new_story :
  (forall old cur s,
      s ∈ PRD.userStories cur ->
      (forall o, old = Some o ->
                 Forall (fun p => UserStory.id p <> UserStory.id s)
                        (PRD.userStories o)) ->
      StoryTransition.mk (UserStory.id s) (UserStory.title s) "new"
        (Changes.storyStatus s)
      ∈ Changes.diffStories old (Some cur))
  /\ (forall old, Changes.diffStories old None = []).
Proof.
  split; [| done].
  intros old cur s Hs Hfresh.
  rewrite diffStories_unfold. apply list_elem_of_bind.
  exists s. split; [| done].
  assert (from_option (fun o => indexById (PRD.userStories o) ∅) ∅ old
            !! UserStory.id s = None) as Hnone.
  { destruct old as [o|]; simpl; [| apply lookup_empty].
    apply indexById_None. split; [apply lookup_empty | by apply Hfresh]. }
  unfold transitionOf, Changes.diffStep. rewrite Hnone.
  rewrite storyStatus_not_new. simpl. apply list_elem_of_singleton. done.
Qed.

(** C9. Every transition carries the identifier (and the title) of a story
    of the current ledger; an identifier that no story of the current
    ledger has, such as that of a story that was removed since the
    baseline, appears in no transition. *)
Theorem diffStories_only_current_stories :
  (forall old new t,
      t ∈ Changes.diffStories old new ->
      exists cur s, new = Some cur /\ s ∈ PRD.userStories cur /\
                    StoryTransition.id t = UserStory.id s /\
                    StoryTransition.title t = UserStory.title s)
  /\ (forall old cur p,
        p ∈ PRD.userStories old ->
        Forall (fun s => UserStory.id s <> UserStory.id p) (PRD.userStories cur) ->
        Forall (fun t => StoryTransition.id t <> UserStory.id p)
               (Changes.diffStories (Some old) (Some cur))).
Proof.
  split.
  - intros old [cur|] t Ht; [| by apply elem_of_nil in Ht].
    apply elem_of_diffStories in Ht as (s & Hs & Hid & Htitle & _). eauto 6.
  - intros old cur p _ Hgone. apply Forall_forall. intros t Ht.
    apply elem_of_diffStories in Ht as (s & Hs & Hid & _).
    rewrite Hid. by eapply Forall_forall in Hgone.
Qed.

End diff.

(** ** The derived status in the three tools *)

Section status.

Implicit Types (s : UserStory.t) (prd : PRD.t).

Example diffStories_new_story_example :
  StoryTransition.mk "US-2" "Story US-2" "new" "available"
  ∈ Changes.diffStories (Some Ex.ledger0) (Some Ex2.ledger2).
Proof.
  apply (proj1 diffStories_new_story (Some Ex.ledger0) Ex2.ledger2 Ex2.us2).
  - vm_compute. apply list_elem_of_further, list_elem_of_here.
  - intros o [= <-]. vm_compute. repeat constructor. discriminate.
Qed.

Lemma diffStories_only_current_stories_witness :
  Forall (fun t => StoryTransition.id t <> "US-2")
         (Changes.diffStories (Some Ex2.ledger2) (Some Ex.ledger1)).
Proof.
  apply (proj2 diffStories_only_current_stories Ex2.ledger2 Ex.ledger1 Ex2.us2).
  - vm_compute. apply list_elem_of_further, list_elem_of_here.
  - vm_compute. repeat constructor. discriminate.
Defined.

(** [storyStatus] is the derived status of a ledger that does not use
    verification. *)
Lemma storyStatus_without_verification s :
  Changes.storyStatus s = Spec.derivedStatus false s.
Proof.
  unfold Changes.storyStatus, Spec.derivedStatus.
  by destruct (UserStory.passes s).
Qed.

(** It is the derived status of the snapshot unless the story passes and
    waits for verification. *)
Lemma storyStatus_agrees inUse s :
  UserStory.passes s = false \/ inUse = false \/ UserStory.is_verified s = true ->
  Changes.storyStatus s = Spec.derivedStatus inUse s.
Proof.
  unfold Changes.storyStatus, Spec.derivedStatus.
  intros [-> | [-> | ->]]; [done | by destruct (UserStory.passes s) |].
  destruct (UserStory.passes s); [| done]. by rewrite orb_true_r.
Qed.

(** The transition of a new story ends in its derived status under the
    current ledger, unless the story passes and waits for verification. *)
Lemma diffStories_new_story_derived old cur s :
  s ∈ PRD.userStories cur ->
  (forall o, old = Some o ->
             Forall (fun p => UserStory.id p <> UserStory.id s)
                    (PRD.userStories o)) ->
  UserStory.passes s = false \/ Spec.verificationInUse cur = false
  \/ UserStory.is_verified s = true ->
  StoryTransition.mk (UserStory.id s) (UserStory.title s) "new"
    (Spec.derivedStatus (Spec.verificationInUse cur) s)
  ∈ Changes.diffStories old (Some cur).
Proof.
  intros Hs Hfresh Hagree.
  rewrite <- (storyStatus_agrees _ _ Hagree).
  by apply diffStories_new_story.
Qed.

Lemma derivedStatus_done inUse s :
  Spec.derivedStatus inUse s = "done" <->
  UserStory.passes s && (negb inUse || UserStory.is_verified s) = true.
Proof.
  unfold Spec.derivedStatus.
  destruct (UserStory.passes s && _); [done |].
  destruct (truthy _); split; intros H; discriminate H.
Qed.

Lemma foldl_pushStory hv (b : Board.t) (l : list UserStory.t) :
  foldl (Status.pushStory hv) b l =
  Board.mk
    (Board.available b ++
       List.filter (fun s => negb (UserStory.passes s)
                             && negb (truthy (UserStory.claimed_by s))) l)
    (Board.claimed b ++
       List.filter (fun s => negb (UserStory.passes s)
                             && truthy (UserStory.claimed_by s)) l)
    (Board.verifying b ++
       List.filter (fun s => UserStory.passes s && hv
                             && negb (UserStory.is_verified s)) l)
    (Board.done b ++
       List.filter (fun s => UserStory.passes s
                             && (UserStory.is_verified s || negb hv)) l).
Proof.
  revert b. induction l as [|s l IH]; intros b.
  - destruct b. simpl. by rewrite !app_nil_r.
  - simpl foldl. rewrite IH. unfold Status.pushStory. simpl List.filter.
    destruct (UserStory.passes s), (UserStory.is_verified s), hv,
      (truthy (UserStory.claimed_by s)); simpl;
      by rewrite <- ?app_assoc.
Qed.

(** The status tool and the ledger reader sort the stories into the same
    groups (the reader also orders the available ones by priority). *)
Lemma status_board_is_reader_board prd :
  Board.done (Status.stories (Some prd)) = PrdRead.effectiveDone prd /\
  Board.verifying (Status.stories (Some prd)) = PrdRead.effectiveVerifying prd /\
  Board.claimed (Status.stories (Some prd)) = PrdRead.claimed prd /\
  JS.sort PrdRead.byPriority (Board.available (Status.stories (Some prd)))
    = PrdRead.available prd.
Proof.
  unfold Status.stories. rewrite foldl_pushStory. simpl.
  unfold PrdRead.effectiveDone, PrdRead.effectiveVerifying, PrdRead.hasVerifiers,
    PrdRead.done, PrdRead.verifying, PrdRead.claimed, PrdRead.available.
  destruct (existsb _ _); repeat split; try done.
  - apply List.filter_ext. intros s. by rewrite orb_false_r.
  - apply List.filter_ext. intros s. by rewrite andb_true_r.
  - apply List.filter_ext. intros s. by rewrite orb_true_r, andb_true_r.
  - induction (PRD.userStories prd) as [|s l IH]; [done |]. simpl.
    by rewrite andb_false_r.
Qed.

(** In both tools the done group holds the stories whose derived status,
    under the toggle of the snapshot, is "done". *)
Lemma done_group_is_derived_done prd s :
  s ∈ PrdRead.effectiveDone prd <->
  s ∈ PRD.userStories prd /\
  Spec.derivedStatus (Spec.verificationInUse prd) s = "done".
Proof.
  rewrite derivedStatus_done.
  unfold PrdRead.effectiveDone, PrdRead.hasVerifiers, Spec.verificationInUse,
    PrdRead.done.
  rewrite !list_elem_of_In.
  destruct (existsb _ _); rewrite List.filter_In; simpl;
    rewrite ?orb_true_r, ?andb_true_r; tauto.
Qed.

(** C1 (the code departs from the claim). In a ledger that uses
    verification, a story that passes and is not verified is not done: the
    rule of the specification, the ledger reader and the status tool all
    say so, and the last two list it as waiting for verification.  The
    status function of the delta tool says "done", also inside
    [diffStories]. *)
Theorem storyStatus_ignores_verification :
  Spec.verificationInUse Ex2.verifyingLedger = true /\
  Spec.derivedStatus (Spec.verificationInUse Ex2.verifyingLedger) Ex2.built
    <> "done" /\
  PrdRead.effectiveDone Ex2.verifyingLedger = [] /\
  PrdRead.effectiveVerifying Ex2.verifyingLedger = [Ex2.built] /\
  Board.done (Status.stories (Some Ex2.verifyingLedger)) = [] /\
  Board.verifying (Status.stories (Some Ex2.verifyingLedger)) = [Ex2.built] /\
  Changes.storyStatus Ex2.built = "done" /\
  Changes.diffStories None (Some Ex2.verifyingLedger) =
    [StoryTransition.mk "US-1" "Story US-1" "new" "done"].
Proof. repeat split; try reflexivity. vm_compute. discriminate. Qed.

(** C7 (the code departs from the claim). US-2 has no counterpart in the
    baseline, and the current ledger uses verification and holds US-2 as
    passing and not verified.  Its transition starts from "new", as
    claimed, but ends in "done", which is not its derived status under the
    current ledger: there it waits for verification.  This is the status
    function of C1 at work inside [diffStories]. *)
Theorem new_story_reported_done_while_verifying :
  Forall (fun p => UserStory.id p <> UserStory.id Ex2.builtNew)
         (PRD.userStories Ex.ledger0) /\
  Changes.diffStories (Some Ex.ledger0) (Some Ex2.ledgerBuilt)
  = [StoryTransition.mk "US-2" "Story US-2" "new" "done"] /\
  Spec.verificationInUse Ex2.ledgerBuilt = true /\
  Spec.derivedStatus (Spec.verificationInUse Ex2.ledgerBuilt) Ex2.builtNew
    <> "done" /\
  PrdRead.effectiveVerifying Ex2.ledgerBuilt = [Ex2.builtNew] /\
  PrdRead.effectiveDone Ex2.ledgerBuilt = [].
Proof.
  split; [repeat constructor; discriminate |].
  repeat split; try reflexivity. vm_compute. discriminate.
Qed.

End status.

(** ** Adding a story *)

Section add_story.

Implicit Types (s : UserStory.t) (prd : PRD.t) (story : StoryInput.t).








End add_story.

(** ** Reading the ledger *)

Section ledger.

Ltac unfold_result :=
  unfold mbind, result_bind, mret, result_ret, fmap, result_fmap,
    catch, try_catch.

Lemma resolveLatestPrdRef_resolvedRef w bareRepo :
  Exec.resolveLatestPrdRef w bareRepo
  = match Spec.resolvedRef w bareRepo with
    | Some ref => Returns ref
    | None => Throws
    end.
Proof.
  unfold Exec.resolveLatestPrdRef, Spec.resolvedRef, Exec.exec. unfold_result.
  destruct (spawn w _ _) as [res|]; [| done].
  destruct (ExecResult.success res); [| done]. simpl.
  by destruct (String.eqb _ _).
Qed.

Lemma readPrdAtCommit_total w bareRepo commit :
  Changes.readPrdAtCommit w bareRepo commit
  = Returns (Spec.ledgerAtCommit w bareRepo commit).
Proof.
  unfold Changes.readPrdAtCommit, Spec.ledgerAtCommit, Spec.parsedAtCommit,
    Exec.exec.
  unfold_result.
  destruct (spawn w _ _) as [res|]; [| done].
  destruct (ExecResult.success res); [| done].
  by destruct (JSON_parse w _).
Qed.

Lemma readPrd_total w projectDir :
  PrdRead.readPrd w projectDir = Returns (Spec.readLedger w projectDir).
Proof.
  unfold PrdRead.readPrd. rewrite resolveLatestPrdRef_resolvedRef.
  unfold Spec.readLedger, Spec.ledgerAtRef, Spec.ledgerOnDisk,
    Spec.parsedAtCommit, Exec.exec.
  unfold_result.
  destruct (stat w _); [| by repeat case_match].
  destruct (Spec.resolvedRef w _) as [ref|]; [| by repeat case_match].
  destruct (spawn w _ _) as [res|]; [| by repeat case_match].
  destruct (ExecResult.success res); [| by repeat case_match].
  destruct (JSON_parse w (ExecResult.stdout res)); [done |].
  by repeat case_match.
Qed.

(** C4, as stated, fails: a text at the resolved ref that is JSON but is
    no ledger, such as null, is the answer of the reader, and the copy on
    disk is not looked at. *)
Lemma readPrd_null_at_ref_skips_disk :
  PrdRead.readPrd (Sim.world ExMore.nullAtRef) "/p" = Returns Falsy /\
  Spec.ledgerOnDisk (Sim.world ExMore.nullAtRef) "/p" = Ledger Ex.ledger0.
Proof. split; reflexivity. Qed.

(** C4, amended. The ledger reader returns what is parsed at the
    resolved ref inside the shared repository, whatever that value is; the
    copy at <project_dir>/prd.json is read when, and only when, step 1
    fails: the repository is absent, git cannot be run for the ref or for
    the file, git exits with a failure on the file, or the text is not
    JSON.  When the copy cannot be read or is not JSON either, the answer
    is null; the reader never throws.  The status tool reads the ledger in
    the same way.  The reader of the delta tool reads at a given commit,
    has no copy on disk to fall back to, answers null when nothing is
    parsed at the commit, and never throws either. *)
Theorem readPrd_is_readLedger :
  forall w projectDir,
    PrdRead.readPrd w projectDir = Returns (Spec.readLedger w projectDir) /\
    Status.readPrdFromBareRepo w projectDir
      = Returns (Spec.readLedger w projectDir) /\
    (forall commit,
      Changes.readPrdAtCommit w (projectDir +:+ "/.ralph/repo.git") commit
      = Returns (Spec.ledgerAtCommit w (projectDir +:+ "/.ralph/repo.git") commit))
    /\
    (forall ref res v,
        stat w (projectDir +:+ "/.ralph/repo.git") <> Throws ->
        Exec.resolveLatestPrdRef w (projectDir +:+ "/.ralph/repo.git")
        = Returns ref ->
        Exec.exec w ["git"; "show"; ref +:+ ":prd.json"]
          (Some (projectDir +:+ "/.ralph/repo.git")) = Returns res ->
        ExecResult.success res = true ->
        JSON_parse w (ExecResult.stdout res) = Returns v ->
        PrdRead.readPrd w projectDir = Returns v) /\
    ((stat w (projectDir +:+ "/.ralph/repo.git") = Throws \/
      Exec.resolveLatestPrdRef w (projectDir +:+ "/.ralph/repo.git") = Throws \/
      (exists ref,
          Exec.resolveLatestPrdRef w (projectDir +:+ "/.ralph/repo.git")
          = Returns ref /\
          (Exec.exec w ["git"; "show"; ref +:+ ":prd.json"]
             (Some (projectDir +:+ "/.ralph/repo.git")) = Throws \/
           exists res,
             Exec.exec w ["git"; "show"; ref +:+ ":prd.json"]
               (Some (projectDir +:+ "/.ralph/repo.git")) = Returns res /\
             (ExecResult.success res = false \/
              JSON_parse w (ExecResult.stdout res) = Throws)))) ->
     PrdRead.readPrd w projectDir = Returns (Spec.ledgerOnDisk w projectDir)).
Proof.
  intros w projectDir. split; [apply readPrd_total |].
  split; [apply readPrd_total |].
  split; [intros commit; apply readPrdAtCommit_total |].
  rewrite readPrd_total, resolveLatestPrdRef_resolvedRef.
  unfold Spec.readLedger, Spec.ledgerAtRef, Spec.parsedAtCommit, Exec.exec.
  split.
  - intros ref res v Hstat Href Hshow Hok Hv.
    destruct (stat w _); [| done].
    destruct (Spec.resolvedRef w _) as [ref'|]; [| done].
    injection Href as ->. by rewrite Hshow, Hok, Hv.
  - intros [Hstat | [Href | (ref & Href & Hshow)]].
    + by rewrite Hstat.
    + destruct (stat w _); [| done].
      by destruct (Spec.resolvedRef w _).
    + destruct (stat w _); [| done].
      destruct (Spec.resolvedRef w _) as [ref'|]; [| done].
      injection Href as ->.
      destruct Hshow as [-> | (res & -> & [-> | Hparse])]; [done | done |].
      destruct (ExecResult.success res); [| done]. by rewrite Hparse.
Qed.

(** Without a repository and without a copy on disk the ledger is absent. *)
Example readPrd_absent :
  PrdRead.readPrd (Sim.world Ex.bare) "/p" = Returns Falsy.
Proof. reflexivity. Qed.

(** With a repository the ledger comes from the branch the agents push to. *)
Example readPrd_from_working_branch :
  PrdRead.readPrd (Sim.world Ex.machine) "/p" = Returns (Ledger Ex.ledger1).
Proof. reflexivity. Qed.

End ledger.

(** ** Sorting *)

Section sort.

Context {A : Type} (cmp : A -> A -> Z).

Lemma sort_insert_perm x l : JS.sort_insert cmp x l ≡ₚ x :: l.
Proof.
  induction l as [|y l IH]; simpl; [done |].
  destruct (cmp x y <=? 0); [done |].
  rewrite IH. apply Permutation_swap.
Qed.

Lemma sort_perm l : JS.sort cmp l ≡ₚ l.
Proof.
  induction l as [|x l IH]; simpl; [done |].
  by rewrite sort_insert_perm, IH.
Qed.

Lemma sort_length l : length (JS.sort cmp l) = length l.
Proof. by rewrite sort_perm. Qed.

Lemma elem_of_sort x l : x ∈ JS.sort cmp l <-> x ∈ l.
Proof. by rewrite sort_perm. Qed.

(** A comparator that orders by a key, largest key first. *)
Hypothesis key : A -> Z.
Hypothesis cmp_key : forall a b, cmp a b = key b - key a.

Local Abbreviation byKey := (keyGe key).

Lemma sort_insert_sorted x l :
  StronglySorted byKey l -> StronglySorted byKey (JS.sort_insert cmp x l).
Proof.
  induction 1 as [|y l Hl IH Hy]; simpl.
  - repeat constructor.
  - destruct (Z.leb_spec (cmp x y) 0) as [Hle|Hgt]; rewrite cmp_key in *.
    + constructor; [by constructor |].
      constructor; [unfold byKey; lia |].
      eapply Forall_impl; [exact Hy |]. unfold byKey. intros z Hz. lia.
    + constructor; [done |].
      rewrite sort_insert_perm. constructor; [unfold byKey; lia | done].
Qed.

Lemma sort_sorted l : StronglySorted byKey (JS.sort cmp l).
Proof.
  induction l as [|x l IH]; simpl; [constructor |].
  by apply sort_insert_sorted.
Qed.

(** The first elements of a sorted list have the largest keys. *)
Lemma sorted_take_drop n l x y :
  StronglySorted byKey l -> x ∈ take n l -> y ∈ drop n l -> key y <= key x.
Proof.
  intros Hs Hx Hy. rewrite <- (take_drop n l) in Hs.
  by eapply StronglySorted_app_1_elem_of in Hs.
Qed.

End sort.

(** ** Trimming the output of a command *)

Section trim.

Implicit Types (s acc : string) (c : ascii).

Lemma append_cons c s1 s2 : String c s1 +:+ s2 = String c (s1 +:+ s2).
Proof. reflexivity. Qed.



Lemma append_empty_r s : s +:+ "" = s.
Proof. induction s as [|c s IH]; [done | by rewrite append_cons, IH]. Qed.


Lemma string_app_assoc (s1 s2 s3 : string) :
  (s1 +:+ s2) +:+ s3 = s1 +:+ s2 +:+ s3.
Proof.
  induction s1 as [|c s1 IH]; [done |]. by rewrite !append_cons, IH.
Qed.

Lemma trimStart_noSpace s : Git.noSpace s = true -> JS.trimStart s = s.
Proof.
  destruct s as [|c s]; [done |]. unfold Git.noSpace. simpl.
  by destruct (Ascii.is_space c).
Qed.






End trim.

(** ** Resolving the ref of the ledger *)

Section resolve_claim.

Ltac unfold_result :=
  unfold mbind, result_bind, mret, result_ret, fmap, result_fmap,
    catch, try_catch.




End resolve_claim.

(** ** The freshness of a worker *)

Section freshness.

Implicit Types (s rest : string) (ds ws : list ascii) (c : ascii).

Lemma span_digits_app ds rest :
  Forall (fun c => JS.is_digit c = true) ds ->
  (forall c rest', rest = String c rest' -> JS.is_digit c = false) ->
  JS.span_digits (String.string_of_list_ascii ds +:+ rest) = (ds, rest).
Proof.
  intros Hds Hrest. induction Hds as [|c ds Hc Hds IH]; simpl.
  - destruct rest as [|c rest']; [done |]. simpl.
    by rewrite (Hrest c rest').
  - rewrite ?append_cons. simpl. by rewrite Hc, IH.
Qed.


Lemma digit_not_space c : JS.is_digit c = true -> Ascii.is_space c = false.
Proof.
  destruct c as [[] [] [] [] [] [] [] []]; try discriminate 1; reflexivity.
Qed.





(** The first group always parses to its decimal value. *)
Lemma parseInt_digits ds :
  ds <> [] ->
  Forall (fun c => JS.is_digit c = true) ds ->
  JS.parseInt (String.string_of_list_ascii ds) = Num (JS.digits_val ds).
Proof.
  intros Hne Hds. destruct ds as [|d ds]; [done |].
  unfold JS.parseInt.
  rewrite trimStart_noSpace.
  2:{ unfold Git.noSpace. rewrite String.list_ascii_of_string_of_list_ascii.
      apply forallb_forall. intros c Hc%list_elem_of_In.
      eapply Forall_forall in Hds; [| done]. by rewrite digit_not_space. }
  assert (JS.span_digits (String.string_of_list_ascii (d :: ds)) = (d :: ds, ""))
    as Hspan.
  { rewrite <- (append_empty_r (String.string_of_list_ascii (d :: ds))).
    by apply span_digits_app. }
  assert (JS.is_digit d = true) as Hd by by inversion Hds.
  simpl String.string_of_list_ascii in *.
  destruct d as [[] [] [] [] [] [] [] []]; try discriminate Hd; by rewrite Hspan.
Qed.

Lemma matchHere_digits s digits unit :
  Changes.matchHere s = Some (digits, unit) ->
  exists ds, digits = String.string_of_list_ascii ds /\ ds <> [] /\
             Forall (fun c => JS.is_digit c = true) ds /\
             unit ∈ Changes.units.
Proof.
  unfold Changes.matchHere.
  assert (forall s ds rest, JS.span_digits s = (ds, rest) ->
                            Forall (fun c => JS.is_digit c = true) ds) as Hspan.
  { clear. induction s as [|c s IH]; simpl; intros ds rest.
    - intros [= <- <-]. constructor.
    - destruct (JS.is_digit c) eqn:Hc.
      + destruct (JS.span_digits s) as [ds' rest'] eqn:Hs. intros [= <- <-].
        constructor; [done |]. by eapply IH.
      + intros [= <- <-]. constructor. }
  destruct (JS.span_digits s) as [ds rest] eqn:Hs.
  destruct ds as [|d ds]; [done |].
  destruct (List.find _ _) as [u|] eqn:Hfind; [| done].
  intros [= <- <-]. exists (d :: ds). repeat split; [done | by eapply Hspan |].
  apply List.find_some in Hfind as [Hin _]. by apply list_elem_of_In.
Qed.

Lemma uptimeMatch_digits s digits unit :
  Changes.uptimeMatch s = Some (digits, unit) ->
  exists ds, digits = String.string_of_list_ascii ds /\ ds <> [] /\
             Forall (fun c => JS.is_digit c = true) ds /\
             unit ∈ Changes.units.
Proof.
  induction s as [|c s IH]; [discriminate 1 |].
  change (Changes.uptimeMatch (String c s))
    with (match Changes.matchHere (String c s) with
          | Some m => Some m
          | None => Changes.uptimeMatch s
          end).
  destruct (Changes.matchHere (String c s)) as [m|] eqn:H; [| done].
  intros [= ->]. by eapply matchHere_digits.
Qed.

End freshness.

Section freshness_claim.


Lemma isLikelyNew_iff now since s :
  Changes.isLikelyNew now (Num since) s = true <->
  exists ds unit,
    Changes.uptimeMatch s = Some (String.string_of_list_ascii ds, unit) /\
    unit ∈ Changes.units /\
    JS.digits_val ds * Changes.unitMs unit < now - since.
Proof.
  unfold Changes.isLikelyNew. split.
  - destruct (Changes.uptimeMatch s) as [[digits unit]|] eqn:Hm; [| done].
    destruct (uptimeMatch_digits _ _ _ Hm) as (ds & -> & Hne & Hds & Hunit).
    rewrite parseInt_digits by done. simpl. intros Hlt%Z.ltb_lt. eauto.
  - intros (ds & unit & Hm & Hunit & Hlt). rewrite Hm.
    destruct (uptimeMatch_digits _ _ _ Hm) as (ds' & Heq & Hne & Hds & _).
    assert (ds' = ds) as -> by
      (apply (f_equal String.list_ascii_of_string) in Heq;
       by rewrite !String.list_ascii_of_string_of_list_ascii in Heq).
    rewrite parseInt_digits by done. simpl. by apply Z.ltb_lt.
Qed.



End freshness_claim.

(** ** Scanning the logs *)

Section logs.

Lemma mapM_Returns {A B} (f : A -> result B) (g : A -> B) (l : list A) :
  (forall x, x ∈ l -> f x = Returns (g x)) ->
  mapM f l = Returns (g <$> l).
Proof.
  induction l as [|x l IH]; intros Hf; [done |].
  simpl. rewrite (Hf x) by apply list_elem_of_here. simpl.
  rewrite IH; [done |]. intros y Hy. by apply Hf, list_elem_of_further.
Qed.

Lemma scanEntries_qualifying w logsDir since mtime entries acc :
  (forall e, e ∈ entries -> isLog e = true ->
             exists st, stat w (logsDir +:+ "/" +:+ DirEntry.name e) = Returns st /\
                        default 0 (FileInfo.mtime st) = mtime (DirEntry.name e)) ->
  Changes.scanEntries w logsDir since entries acc
  = Returns (acc ++ qualifying mtime since entries).
Proof.
  revert acc. induction entries as [|e entries IH]; intros acc Hstat.
  - simpl. by rewrite app_nil_r.
  - assert (forall e', e' ∈ entries -> isLog e' = true ->
              exists st, stat w (logsDir +:+ "/" +:+ DirEntry.name e') = Returns st /\
                         default 0 (FileInfo.mtime st) = mtime (DirEntry.name e'))
      as Hrest by (intros e' He'; by apply Hstat, list_elem_of_further).
    simpl. unfold qualifying. simpl. fold (isLog e).
    destruct (isLog e) eqn:Hlog; simpl; [| by apply IH].
    destruct (Hstat e (list_elem_of_here _ _) Hlog) as (st & -> & Hm).
    simpl. rewrite Hm.
    destruct (JS.gt _ since); simpl; rewrite IH by done; [| done].
    by rewrite <- app_assoc.
Qed.

Lemma elem_of_qualifying mtime since entries f :
  f ∈ qualifying mtime since entries ->
  exists e, e ∈ entries /\ isLog e = true /\ NewFile.name f = DirEntry.name e.
Proof.
  unfold qualifying. intros (e & -> & He)%list_elem_of_fmap.
  apply list_elem_of_In, List.filter_In in He as [He Hq].
  apply andb_true_iff in Hq as [Hlog _].
  exists e. by rewrite list_elem_of_In.
Qed.

(** The last ten lines are a suffix of the lines of the file. *)
Lemma tailLines_spec content :
  exists older kept,
    JS.split "010" content = older ++ kept /\
    length kept = Nat.min 10 (length (JS.split "010" content)) /\
    Changes.tailLines content = JS.join (String "010" "") kept.
Proof.
  unfold Changes.tailLines, JS.slice_last.
  set (lines := JS.split "010" content).
  exists (take (length lines - 10) lines), (drop (length lines - 10) lines).
  split; [by rewrite take_drop |]. split; [| done].
  rewrite length_drop. lia.
Qed.

(** C5. When the directory cannot be listed the scan returns no entry.
    When it can be listed, and the logs in it can be read, new_count is
    the number of all the logs modified after the reference time, and the
    summaries are those of the first five of them in the order of
    modification time, newest first: any of the others is at most as recent
    as each summarised one.  Each summary holds the last ten lines of its
    file, joined by newlines. *)
Theorem scanNewLogs_spec :
  (forall w logsDir since,
      readDir w logsDir = Throws ->
      Changes.scanNewLogs w logsDir since = Returns (LogScan.mk 0 []))
  /\ (forall w logsDir since entries mtime content,
        readDir w logsDir = Returns entries ->
        (forall e, e ∈ entries -> isLog e = true ->
                   exists st,
                     stat w (logsDir +:+ "/" +:+ DirEntry.name e) = Returns st /\
                     default 0 (FileInfo.mtime st) = mtime (DirEntry.name e)) ->
        (forall e, e ∈ entries -> isLog e = true ->
                   readTextFile w (logsDir +:+ "/" +:+ DirEntry.name e)
                   = Returns (content (DirEntry.name e))) ->
        exists top rest,
          Changes.scanNewLogs w logsDir since
          = Returns (LogScan.mk (length (qualifying mtime since entries))
                       (summaryOf content <$> top)) /\
          top ++ rest ≡ₚ qualifying mtime since entries /\
          length top = Nat.min 5 (length (qualifying mtime since entries)) /\
          StronglySorted (keyGe NewFile.mtime) top /\
          (forall f g, f ∈ top -> g ∈ rest -> NewFile.mtime g <= NewFile.mtime f))
  /\ (forall content,
        exists older kept,
          JS.split "010" content = older ++ kept /\
          length kept = Nat.min 10 (length (JS.split "010" content)) /\
          Changes.tailLines content = JS.join (String "010" "") kept).
Proof.
  split; [| split; [| exact tailLines_spec]].
  - intros w logsDir since Hdir. unfold Changes.scanNewLogs.
    rewrite Hdir. done.
  - intros w logsDir since entries mtime content Hdir Hstat Hread.
    set (sorted := JS.sort Changes.byMtimeDesc (qualifying mtime since entries)).
    assert (StronglySorted (keyGe NewFile.mtime) sorted) as Hsorted
      by by apply (sort_sorted Changes.byMtimeDesc NewFile.mtime).
    exists (take 5 sorted), (drop 5 sorted).
    split; [| split; [| split; [| split]]].
    + unfold Changes.scanNewLogs. rewrite Hdir. simpl.
      rewrite (scanEntries_qualifying _ _ _ mtime) by done. simpl.
      fold sorted.
      rewrite (mapM_Returns _ (summaryOf content)); [done |].
      intros f Hf. apply subseteq_take, elem_of_sort in Hf.
      apply elem_of_qualifying in Hf as (e & He & Hlog & Hname).
      unfold Changes.summarize, summaryOf. rewrite Hname, (Hread e) by done.
      done.
    + rewrite take_drop. apply sort_perm.
    + unfold sorted. rewrite length_take, sort_length. lia.
    + rewrite <- (take_drop 5 sorted) in Hsorted.
      by apply StronglySorted_app_1_l in Hsorted.
    + intros f g Hf Hg.
      by apply (sorted_take_drop NewFile.mtime 5 sorted).
Qed.

End logs.

Section logs_example.

(** Eight new logs: all are counted, the five newest are summarised. *)
Example scanNewLogs_eight_new :
  exists summaries,
    Changes.scanNewLogs (Sim.world ExLogs.machine) "/p/agent_logs" (Num 1000)
    = Returns (LogScan.mk 8 summaries) /\
    LogEntry.file <$> summaries
    = ["agent-2.log"; "agent-4.log"; "agent-6.log"; "agent-5.log"; "agent-7.log"].
Proof. eexists. split; reflexivity. Qed.

Lemma scanNewLogs_spec_witness :
  exists top rest,
    Changes.scanNewLogs (Sim.world ExLogs.machine) "/p/agent_logs" (Num 1000)
    = Returns
        (LogScan.mk
           (length (qualifying ExLogs.mtimeOf (Num 1000)
                      ((fun f => DirEntry.mk (File.name f) true) <$> ExLogs.files)))
           (summaryOf ExLogs.contentOf <$> top)) /\
    top ++ rest ≡ₚ qualifying ExLogs.mtimeOf (Num 1000)
                     ((fun f => DirEntry.mk (File.name f) true) <$> ExLogs.files) /\
    length top
    = Nat.min 5 (length (qualifying ExLogs.mtimeOf (Num 1000)
                           ((fun f => DirEntry.mk (File.name f) true)
                              <$> ExLogs.files))) /\
    StronglySorted (keyGe NewFile.mtime) top /\
    (forall f g, f ∈ top -> g ∈ rest -> NewFile.mtime g <= NewFile.mtime f).
Proof.
  apply (proj1 (proj2 scanNewLogs_spec) (Sim.world ExLogs.machine)
           "/p/agent_logs" (Num 1000)
           ((fun f => DirEntry.mk (File.name f) true) <$> ExLogs.files)
           ExLogs.mtimeOf ExLogs.contentOf).
  - reflexivity.
  - intros e He Hlog.
    repeat (apply elem_of_cons in He as [-> | He];
            [first [discriminate Hlog | eexists; split; reflexivity] |]).
    by apply elem_of_nil in He.
  - intros e He Hlog.
    repeat (apply elem_of_cons in He as [-> | He];
            [first [discriminate Hlog | reflexivity] |]).
    by apply elem_of_nil in He.
Defined.

End logs_example.

(** ** The delta aggregator *)

Section aggregator.

Ltac unfold_result :=
  unfold mbind, result_bind, mret, result_ret, fmap, result_fmap,
    catch, try_catch.

(** The handler is the chain of its lookups and of the two steps that can
    throw after them: the call rejects exactly when one of the lookups
    that are not guarded rejects, or one of these steps throws. *)
Lemma handler_unfold w project_dir since_commit :
  Changes.handler w project_dir since_commit =
  let bareRepo := project_dir +:+ "/.ralph/repo.git" in
  let logsDir := project_dir +:+ "/agent_logs" in
  sinceCommit ← sinceCommitOf w bareRepo since_commit;
  headResult ← Exec.exec w headCmd (Some bareRepo);
  sinceTimestamp ← sinceTimestampOf w bareRepo sinceCommit;
  logEntries ← Changes.scanNewLogs w logsDir sinceTimestamp;
  storyTransitions ←
    Changes.diffParsed (Spec.ledgerAtCommit w bareRepo sinceCommit)
                       (Spec.ledgerAtCommit w bareRepo "HEAD");
  likelyNew ← Changes.likelyNewFilter (now w) sinceTimestamp (containersOf w);
  mret (ChangesResult.mk project_dir sinceCommit (latestCommitOf headResult)
          (newCommitsOf w bareRepo sinceCommit) storyTransitions logEntries
          (Containers.mk (containersOf w) (ContainerInfo.name <$> likelyNew))).
Proof.
  unfold Changes.handler, sinceCommitOf, sinceTimestampOf, newCommitsOf,
    containersOf, latestCommitOf, parsedLines, firstLine.
  fold rootCmd headCmd. cbv zeta.
  set (bareRepo := project_dir +:+ "/.ralph/repo.git").
  set (logsDir := project_dir +:+ "/agent_logs").
  assert (forall A (k : string -> result A),
             ((if truthy_opt since_commit
               then mret (default "" since_commit)
               else initResult ← Exec.exec w rootCmd (Some bareRepo);
                    mret (if ExecResult.success initResult
                          then default "" (head (JS.split "010"
                                 (JS.trim (ExecResult.stdout initResult))))
                          else "HEAD")) ≫= k)
             = ((if truthy_opt since_commit
                 then Returns (default "" since_commit)
                 else match Exec.exec w rootCmd (Some bareRepo) with
                      | Returns initResult =>
                          Returns (if ExecResult.success initResult
                                   then default "" (head (JS.split "010"
                                          (JS.trim (ExecResult.stdout initResult))))
                                   else "HEAD")
                      | Throws => Throws
                      end) ≫= k)) as ->.
  { intros A k. destruct (truthy_opt since_commit); [done |].
    by destruct (Exec.exec w rootCmd (Some bareRepo)). }
  destruct (if truthy_opt since_commit then _ else _) as [sinceCommit|];
    [| done].
  unfold_result. fold (timeCmd sinceCommit) (rangeCmd sinceCommit).
  destruct (Exec.exec w headCmd (Some bareRepo)) as [headResult|]; [| done].
  destruct (Exec.exec w (timeCmd sinceCommit) (Some bareRepo)) as [ts|]; [| done].
  rewrite !readPrdAtCommit_total.
  destruct (Exec.exec w (rangeCmd sinceCommit) (Some bareRepo)) as [commits|];
    destruct (Exec.exec w Changes.dockerPs None) as [docker|];
    destruct (Changes.scanNewLogs w logsDir _) as [logEntries|]; try done.
Qed.

(** When the story diff throws: the current value is truthy, and it or a
    truthy baseline has no stories. *)
Lemma diffParsed_Throws old cur :
  Changes.diffParsed old cur = Throws <->
  cur = NoStories \/ (exists prd, cur = Ledger prd) /\ old = NoStories.
Proof.
  destruct old, cur; simpl; split; try done; try tauto; try (by eauto);
    intros [? | [(? & ?) ?]]; done.
Qed.

Lemma diffParsed_ledgers old cur :
  Changes.diffParsed (from_option Ledger Falsy old) (from_option Ledger Falsy cur)
  = Returns (Changes.diffStories old cur).
Proof. by destruct old, cur. Qed.

End aggregator.

Section aggregator_claim.

(** What a call that returns went through. *)
Lemma handler_Returns_inv w project_dir since_commit r :
  Changes.handler w project_dir since_commit = Returns r ->
  exists sinceCommit headResult sinceTimestamp logEntries transitions likelyNew,
    sinceCommitOf w (project_dir +:+ "/.ralph/repo.git") since_commit
    = Returns sinceCommit /\
    Exec.exec w headCmd (Some (project_dir +:+ "/.ralph/repo.git"))
    = Returns headResult /\
    sinceTimestampOf w (project_dir +:+ "/.ralph/repo.git") sinceCommit
    = Returns sinceTimestamp /\
    Changes.scanNewLogs w (project_dir +:+ "/agent_logs") sinceTimestamp
    = Returns logEntries /\
    Changes.diffParsed
      (Spec.ledgerAtCommit w (project_dir +:+ "/.ralph/repo.git") sinceCommit)
      (Spec.ledgerAtCommit w (project_dir +:+ "/.ralph/repo.git") "HEAD")
    = Returns transitions /\
    Changes.likelyNewFilter (now w) sinceTimestamp (containersOf w)
    = Returns likelyNew /\
    r = ChangesResult.mk project_dir sinceCommit (latestCommitOf headResult)
          (newCommitsOf w (project_dir +:+ "/.ralph/repo.git") sinceCommit)
          transitions logEntries
          (Containers.mk (containersOf w) (ContainerInfo.name <$> likelyNew)).
Proof.
  rewrite handler_unfold. cbv zeta. intros H.
  destruct (sinceCommitOf w _ since_commit) as [sinceCommit|] eqn:Hsince;
    [| done].
  simpl in H.
  destruct (Exec.exec w headCmd _) as [headResult|] eqn:Hhead; [| done].
  simpl in H.
  destruct (sinceTimestampOf w _ sinceCommit) as [sinceTimestamp|] eqn:Hts;
    [| done].
  simpl in H.
  destruct (Changes.scanNewLogs w _ sinceTimestamp) as [logEntries|] eqn:Hlogs;
    [| done].
  simpl in H.
  destruct (Changes.diffParsed _ _) as [transitions|] eqn:Hdiff; [| done].
  simpl in H.
  destruct (Changes.likelyNewFilter _ _ _) as [likelyNew|] eqn:Hnew; [| done].
  simpl in H. injection H as <-.
  exists sinceCommit, headResult, sinceTimestamp, logEntries, transitions,
    likelyNew.
  by rewrite Hts, Hlogs, Hnew.
Qed.

(** The call returns its document whenever the lookups that are not
    guarded and the two steps that can throw return. *)
Lemma handler_Returns w project_dir since_commit sinceCommit headResult
    sinceTimestamp logEntries transitions likelyNew :
  sinceCommitOf w (project_dir +:+ "/.ralph/repo.git") since_commit
  = Returns sinceCommit ->
  Exec.exec w headCmd (Some (project_dir +:+ "/.ralph/repo.git"))
  = Returns headResult ->
  sinceTimestampOf w (project_dir +:+ "/.ralph/repo.git") sinceCommit
  = Returns sinceTimestamp ->
  Changes.scanNewLogs w (project_dir +:+ "/agent_logs") sinceTimestamp
  = Returns logEntries ->
  Changes.diffParsed
    (Spec.ledgerAtCommit w (project_dir +:+ "/.ralph/repo.git") sinceCommit)
    (Spec.ledgerAtCommit w (project_dir +:+ "/.ralph/repo.git") "HEAD")
  = Returns transitions ->
  Changes.likelyNewFilter (now w) sinceTimestamp (containersOf w)
  = Returns likelyNew ->
  Changes.handler w project_dir since_commit
  = Returns
      (ChangesResult.mk project_dir sinceCommit (latestCommitOf headResult)
         (newCommitsOf w (project_dir +:+ "/.ralph/repo.git") sinceCommit)
         transitions logEntries
         (Containers.mk (containersOf w) (ContainerInfo.name <$> likelyNew))).
Proof.
  intros Hsince Hhead Hts Hlogs Hdiff Hnew.
  rewrite handler_unfold. cbv zeta.
  rewrite Hsince. simpl. rewrite Hhead. simpl. rewrite Hts. simpl.
  rewrite Hlogs. simpl. rewrite Hdiff. simpl. rewrite Hnew. done.
Qed.

(** C8. In the document a call returns: without a since_commit,
    since_commit is the first commit git lists as parentless under HEAD;
    when the lookup of the timestamp of since_commit fails, the log scan
    and the uptime filter are those of the reference time 0; when the
    listing of the range fails, or cannot be run, new_commits is empty.
    None of these failures makes the call fail.  The call returns its
    document whenever the steps that are not guarded return: the lookups
    of the root, of the head and of the timestamp can be run, the log
    scan and the uptime filter return, and the story diff does not throw
    on a parsed value without stories.  So a timestamp lookup that fails
    gives the document of the reference time 0, and a range listing that
    fails or cannot be run gives a document with no new commit, when the
    other steps return. *)
Theorem changes_fallbacks :
  (forall w project_dir since_commit r,
      Changes.handler w project_dir since_commit = Returns r ->
      (forall initResult,
          truthy_opt since_commit = false ->
          Exec.exec w rootCmd (Some (project_dir +:+ "/.ralph/repo.git"))
          = Returns initResult ->
          ExecResult.success initResult = true ->
          ChangesResult.since_commit r
          = firstLine (ExecResult.stdout initResult))
      /\ (forall res,
            Exec.exec w (timeCmd (ChangesResult.since_commit r))
              (Some (project_dir +:+ "/.ralph/repo.git")) = Returns res ->
            ExecResult.success res = false ->
            Changes.scanNewLogs w (project_dir +:+ "/agent_logs") (Num 0)
            = Returns (ChangesResult.new_log_entries r) /\
            exists likelyNew,
              Changes.likelyNewFilter (now w) (Num 0)
                (Containers.current (ChangesResult.containers r))
              = Returns likelyNew /\
              Containers.likely_new (ChangesResult.containers r)
              = ContainerInfo.name <$> likelyNew)
      /\ (Exec.exec w (rangeCmd (ChangesResult.since_commit r))
             (Some (project_dir +:+ "/.ralph/repo.git")) = Throws \/
          (exists res,
              Exec.exec w (rangeCmd (ChangesResult.since_commit r))
                (Some (project_dir +:+ "/.ralph/repo.git")) = Returns res /\
              ExecResult.success res = false) ->
          ChangesResult.new_commits r = []))
  /\ (forall w project_dir since_commit sinceCommit headResult sinceTimestamp
             logEntries transitions likelyNew,
        sinceCommitOf w (project_dir +:+ "/.ralph/repo.git") since_commit
        = Returns sinceCommit ->
        Exec.exec w headCmd (Some (project_dir +:+ "/.ralph/repo.git"))
        = Returns headResult ->
        sinceTimestampOf w (project_dir +:+ "/.ralph/repo.git") sinceCommit
        = Returns sinceTimestamp ->
        Changes.scanNewLogs w (project_dir +:+ "/agent_logs") sinceTimestamp
        = Returns logEntries ->
        Changes.diffParsed
          (Spec.ledgerAtCommit w (project_dir +:+ "/.ralph/repo.git") sinceCommit)
          (Spec.ledgerAtCommit w (project_dir +:+ "/.ralph/repo.git") "HEAD")
        = Returns transitions ->
        Changes.likelyNewFilter (now w) sinceTimestamp (containersOf w)
        = Returns likelyNew ->
        Changes.handler w project_dir since_commit
        = Returns
            (ChangesResult.mk project_dir sinceCommit (latestCommitOf headResult)
               (newCommitsOf w (project_dir +:+ "/.ralph/repo.git") sinceCommit)
               transitions logEntries
               (Containers.mk (containersOf w)
                  (ContainerInfo.name <$> likelyNew))))
  /\ (forall w project_dir since_commit sinceCommit headResult res
             logEntries transitions likelyNew,
        sinceCommitOf w (project_dir +:+ "/.ralph/repo.git") since_commit
        = Returns sinceCommit ->
        Exec.exec w headCmd (Some (project_dir +:+ "/.ralph/repo.git"))
        = Returns headResult ->
        Exec.exec w (timeCmd sinceCommit)
          (Some (project_dir +:+ "/.ralph/repo.git")) = Returns res ->
        ExecResult.success res = false ->
        Changes.scanNewLogs w (project_dir +:+ "/agent_logs") (Num 0)
        = Returns logEntries ->
        Changes.diffParsed
          (Spec.ledgerAtCommit w (project_dir +:+ "/.ralph/repo.git") sinceCommit)
          (Spec.ledgerAtCommit w (project_dir +:+ "/.ralph/repo.git") "HEAD")
        = Returns transitions ->
        Changes.likelyNewFilter (now w) (Num 0) (containersOf w)
        = Returns likelyNew ->
        exists r,
          Changes.handler w project_dir since_commit = Returns r /\
          ChangesResult.new_log_entries r = logEntries /\
          Containers.likely_new (ChangesResult.containers r)
          = ContainerInfo.name <$> likelyNew)
  /\ (forall w project_dir since_commit sinceCommit headResult sinceTimestamp
             logEntries transitions likelyNew,
        sinceCommitOf w (project_dir +:+ "/.ralph/repo.git") since_commit
        = Returns sinceCommit ->
        Exec.exec w headCmd (Some (project_dir +:+ "/.ralph/repo.git"))
        = Returns headResult ->
        sinceTimestampOf w (project_dir +:+ "/.ralph/repo.git") sinceCommit
        = Returns sinceTimestamp ->
        Changes.scanNewLogs w (project_dir +:+ "/agent_logs") sinceTimestamp
        = Returns logEntries ->
        Changes.diffParsed
          (Spec.ledgerAtCommit w (project_dir +:+ "/.ralph/repo.git") sinceCommit)
          (Spec.ledgerAtCommit w (project_dir +:+ "/.ralph/repo.git") "HEAD")
        = Returns transitions ->
        Changes.likelyNewFilter (now w) sinceTimestamp (containersOf w)
        = Returns likelyNew ->
        (Exec.exec w (rangeCmd sinceCommit)
           (Some (project_dir +:+ "/.ralph/repo.git")) = Throws \/
         exists res,
           Exec.exec w (rangeCmd sinceCommit)
             (Some (project_dir +:+ "/.ralph/repo.git")) = Returns res /\
           ExecResult.success res = false) ->
        exists r,
          Changes.handler w project_dir since_commit = Returns r /\
          ChangesResult.new_commits r = []).
Proof.
  split; [| split; [| split]].
  - intros w project_dir since_commit r Hr.
    apply handler_Returns_inv in Hr
      as (sinceCommit & headResult & ts & logEntries & transitions & likelyNew
          & Hsince & Hhead & Hts & Hlogs & Hdiff & Hnew & ->).
    simpl. split; [| split].
    + intros initResult Habsent Hinit Hok.
      unfold sinceCommitOf in Hsince.
      rewrite Habsent, Hinit, Hok in Hsince. by injection Hsince.
    + intros res Hres Hfail. unfold sinceTimestampOf in Hts.
      rewrite Hres, Hfail in Hts. injection Hts as <-. eauto.
    + intros [Hthrows | (res & Hres & Hfail)]; unfold newCommitsOf, parsedLines.
      * by rewrite Hthrows.
      * by rewrite Hres, Hfail.
  - intros w project_dir since_commit sinceCommit headResult sinceTimestamp
      logEntries transitions likelyNew. apply handler_Returns.
  - intros w project_dir since_commit sinceCommit headResult res
      logEntries transitions likelyNew Hsince Hhead Hres Hfail Hlogs Hdiff Hnew.
    eexists. split.
    + apply (handler_Returns w project_dir since_commit sinceCommit headResult
               (Num 0) logEntries transitions likelyNew); try done.
      unfold sinceTimestampOf. by rewrite Hres, Hfail.
    + done.
  - intros w project_dir since_commit sinceCommit headResult sinceTimestamp
      logEntries transitions likelyNew Hsince Hhead Hts Hlogs Hdiff Hnew Hrange.
    eexists. split.
    + by apply (handler_Returns w project_dir since_commit sinceCommit
                  headResult sinceTimestamp logEntries transitions likelyNew).
    + simpl. unfold newCommitsOf, parsedLines.
      destruct Hrange as [-> | (res & -> & ->)]; done.
Qed.

(** On the example repository: since a commit that git does not know, the
    call still returns, with no new commit and the reference time 0; with
    no since_commit, since_commit is the root commit c0. *)
Lemma changes_fallbacks_witness :
  Changes.handler (Sim.world Ex.machine) "/p" (Some "0000000")
  = Returns
      (ChangesResult.mk "/p" "0000000" Ex.c0 []
         [StoryTransition.mk "US-1" "Story US-1" "new" "available"]
         (LogScan.mk 0 []) (Containers.mk [] [])) /\
  (forall r, Changes.handler (Sim.world Ex.machine) "/p" None = Returns r ->
             ChangesResult.since_commit r = Ex.c0).
Proof.
  destruct changes_fallbacks as (Hfields & Hcall & _).
  split.
  - etrans.
    + apply (Hcall (Sim.world Ex.machine) "/p" (Some "0000000") "0000000"
               (Git.ok (Git.lines [Ex.c0])) (Num 0) (LogScan.mk 0 [])
               [StoryTransition.mk "US-1" "Story US-1" "new" "available"] []);
        reflexivity.
    + reflexivity.
  - intros r Hr.
    destruct (Hfields (Sim.world Ex.machine) "/p" None r Hr) as (Hroot & _).
    apply (Hroot (Git.ok (Git.lines [Ex.c0]))); reflexivity.
Defined.

End aggregator_claim.

Section polling.

(** C2 (the code departs from the claim). The agents push to a working
    branch, so HEAD of the shared repository stays at c0 while the branch
    is at c1.  The first call reports c1 as new and gives c0 as
    latest_commit; the next call, made with that latest_commit and with
    nothing pushed in between, reports c1 again.  The status tool, on the
    same repository, gives c1 as the latest commit, and a call since c1
    reports nothing. *)
Theorem polling_repeats_commits :
  exists r1 r2 r3,
    Changes.handler (Sim.world Ex.machine) "/p" None = Returns r1 /\
    Changes.handler (Sim.world Ex.machine) "/p"
      (Some (ChangesResult.latest_commit r1)) = Returns r2 /\
    ChangesResult.latest_commit r1 = Ex.c0 /\
    ChangesResult.new_commits r1 = [CommitLine.mk "c1f9e8d" "US-1: claim"] /\
    ChangesResult.new_commits r2 = [CommitLine.mk "c1f9e8d" "US-1: claim"] /\
    Exec.resolveLatestCommit (Sim.world Ex.machine) "/p/.ralph/repo.git"
    = Returns Ex.c1 /\
    Changes.handler (Sim.world Ex.machine) "/p" (Some Ex.c1) = Returns r3 /\
    ChangesResult.new_commits r3 = [].
Proof. eexists _, _, _. repeat split; reflexivity. Qed.

End polling.

(** * Further properties of the code *)

(** ** More on the story diff *)

Section diff_more.

Implicit Types (s p : UserStory.t) (t : StoryTransition.t).
Implicit Types (m : gmap string UserStory.t).

Lemma indexById_app l1 l2 m :
  indexById (l1 ++ l2) m = indexById l2 (indexById l1 m).
Proof. unfold indexById. apply foldl_app. Qed.

Lemma indexById_lookup_ne l m k :
  Forall (fun p => UserStory.id p <> k) l -> indexById l m !! k = m !! k.
Proof.
  revert m. induction l as [|p l IH]; intros m Hl; [done |].
  apply Forall_cons in Hl as [Hp Hl]. simpl.
  rewrite IH by done. by rewrite lookup_insert_ne.
Qed.

(** The map built from the baseline holds, for each identifier, the last
    story that has it. *)
Lemma indexById_last pre p post m :
  Forall (fun q => UserStory.id q <> UserStory.id p) post ->
  indexById (pre ++ p :: post) m !! UserStory.id p = Some p.
Proof.
  intros Hpost. rewrite indexById_app. simpl.
  rewrite indexById_lookup_ne by done. apply lookup_insert_eq.
Qed.

Lemma indexById_Some l m k p :
  indexById l m !! k = Some p ->
  m !! k = Some p \/ (p ∈ l /\ UserStory.id p = k).
Proof.
  revert m. induction l as [|q l IH]; intros m; simpl; [by left |].
  intros [Hm | [Hp Hid]]%IH.
  - apply lookup_insert_Some in Hm as [[<- <-] | [_ Hm]].
    + right. split; [apply list_elem_of_here | done].
    + by left.
  - right. split; [by apply list_elem_of_further | done].
Qed.

Lemma bind_all_nil {A B} (f : A -> list B) (l : list A) :
  (forall x, x ∈ l -> f x = []) -> l ≫= f = [].
Proof.
  induction l as [|x l IH]; intros Hf; [done |].
  rewrite bind_cons, (Hf x) by apply list_elem_of_here.
  apply IH. intros y Hy. by apply Hf, list_elem_of_further.
Qed.

Lemma NoDup_ids_split (l : list UserStory.t) s :
  NoDup (UserStory.id <$> l) -> s ∈ l ->
  exists pre post,
    l = pre ++ s :: post /\
    Forall (fun q => UserStory.id q <> UserStory.id s) post.
Proof.
  intros Hnd (pre & post & ->)%list_elem_of_split.
  exists pre, post. split; [done |].
  rewrite fmap_app, fmap_cons in Hnd.
  apply NoDup_app in Hnd as (_ & _ & Hnd). apply NoDup_cons in Hnd as [Hs _].
  apply Forall_forall. intros q Hq Heq. apply Hs. rewrite <- Heq.
  by apply list_elem_of_fmap_2.
Qed.

(** X1. Comparing a ledger with itself reports nothing, as long as its
    identifiers are unique. *)
Theorem diffStories_same_ledger prd :
  NoDup (UserStory.id <$> PRD.userStories prd) ->
  Changes.diffStories (Some prd) (Some prd) = [].
Proof.
  intros Hnd. rewrite diffStories_unfold. simpl.
  apply bind_all_nil. intros s Hs.
  destruct (NoDup_ids_split _ _ Hnd Hs) as (pre & post & Hl & Hpost).
  unfold transitionOf, Changes.diffStep.
  rewrite Hl at 1. rewrite indexById_last by done.
  by rewrite String.eqb_refl.
Qed.

Lemma diffStories_same_ledger_witness :
  Changes.diffStories (Some Ex2.ledger2) (Some Ex2.ledger2) = [].
Proof.
  apply (diffStories_same_ledger Ex2.ledger2).
  unshelve eapply bool_decide_unpack; first [vm_compute; exact I | apply _].
Defined.

(** X2. A transition never has equal ends: it ends in the status of a
    story of the current ledger and starts from a different status, which
    is that of a baseline story with the same identifier or, when the
    baseline has none, the literal "new". *)
Theorem diffStories_transition_changes_status old cur t :
  t ∈ Changes.diffStories old (Some cur) ->
  StoryTransition.from t <> StoryTransition.to t /\
  exists s,
    s ∈ PRD.userStories cur /\
    StoryTransition.id t = UserStory.id s /\
    StoryTransition.to t = Changes.storyStatus s /\
    ((StoryTransition.from t = "new" /\
      forall o, old = Some o ->
                Forall (fun p => UserStory.id p <> UserStory.id s)
                       (PRD.userStories o))
     \/ exists o p, old = Some o /\ p ∈ PRD.userStories o /\
                    UserStory.id p = UserStory.id s /\
                    StoryTransition.from t = Changes.storyStatus p).
Proof.
  rewrite diffStories_unfold.
  intros (s & Ht & Hs)%list_elem_of_bind.
  unfold transitionOf, Changes.diffStep in Ht.
  destruct (String.eqb _ _) eqn:Hne; simpl in Ht; [by apply elem_of_nil in Ht |].
  apply list_elem_of_singleton in Ht as ->. simpl.
  apply String.eqb_neq in Hne. split; [done |].
  exists s. do 3 (split; [done |]).
  destruct old as [o|]; simpl in *.
  - destruct (indexById (PRD.userStories o) ∅ !! UserStory.id s) as [p|] eqn:Hp.
    + right. apply indexById_Some in Hp as [Hp | [Hp Hid]]; [done |].
      by exists o, p.
    + left. split; [done |]. intros o' [= <-].
      by apply indexById_None in Hp as [_ Hp].
  - left. rewrite lookup_empty. split; [done |]. by intros o' [=].
Qed.

Lemma diffStories_transition_changes_status_witness :
  exists t,
    t ∈ Changes.diffStories (Some Ex.ledger0) (Some Ex.ledger1) /\
    StoryTransition.from t <> StoryTransition.to t.
Proof.
  exists (StoryTransition.mk "US-1" "Story US-1" "available" "claimed by agent-1").
  split; [vm_compute; apply list_elem_of_here |].
  apply (diffStories_transition_changes_status (Some Ex.ledger0) Ex.ledger1).
  vm_compute. apply list_elem_of_here.
Defined.

(** X3. The transitions come in the order of the current ledger, at most
    one for each of its stories. *)
Theorem diffStories_in_ledger_order old cur :
  (StoryTransition.id <$> Changes.diffStories old (Some cur))
  `sublist_of` (UserStory.id <$> PRD.userStories cur).
Proof.
  rewrite diffStories_unfold.
  induction (PRD.userStories cur) as [|s l IH]; [done |].
  rewrite bind_cons, fmap_app, fmap_cons.
  unfold transitionOf at 1, Changes.diffStep.
  destruct (negb _); simpl.
  - by apply sublist_skip.
  - by apply sublist_cons.
Qed.

(** X4. When the baseline lists an identifier several times, the story of
    the current ledger is compared with the last of them: a different status
    there gives the transition from that status, an equal one gives no
    transition for the story. *)
Theorem diffStories_last_baseline_entry old cur pre p post s :
  PRD.userStories old = pre ++ p :: post ->
  Forall (fun q => UserStory.id q <> UserStory.id p) post ->
  s ∈ PRD.userStories cur ->
  UserStory.id s = UserStory.id p ->
  (Changes.storyStatus p <> Changes.storyStatus s ->
   StoryTransition.mk (UserStory.id s) (UserStory.title s)
     (Changes.storyStatus p) (Changes.storyStatus s)
   ∈ Changes.diffStories (Some old) (Some cur))
  /\ (Changes.storyStatus p = Changes.storyStatus s ->
      NoDup (UserStory.id <$> PRD.userStories cur) ->
      Forall (fun t => StoryTransition.id t <> UserStory.id s)
             (Changes.diffStories (Some old) (Some cur))).
Proof.
  intros Hold Hpost Hs Hid.
  assert (indexById (PRD.userStories old) ∅ !! UserStory.id s = Some p) as Hlast
    by (rewrite Hold, Hid; by apply indexById_last).
  rewrite diffStories_unfold. simpl. split.
  - intros Hne. apply list_elem_of_bind. exists s. split; [| done].
    unfold transitionOf, Changes.diffStep. rewrite Hlast.
    apply String.eqb_neq in Hne. rewrite Hne. simpl. apply list_elem_of_here.
  - intros Heq Hnd. apply Forall_forall.
    intros t (s' & Ht & Hs')%list_elem_of_bind Hidt.
    unfold transitionOf, Changes.diffStep in Ht.
    destruct (negb _) eqn:Hne; simpl in Ht; [| by apply elem_of_nil in Ht].
    apply list_elem_of_singleton in Ht as ->. simpl in Hidt.
    assert (s' = s) as ->.
    { destruct (NoDup_ids_split _ _ Hnd Hs) as (l1 & l2 & Hl & Hl2).
      rewrite Hl in Hs', Hnd.
      rewrite fmap_app, fmap_cons in Hnd.
      apply NoDup_app in Hnd as (_ & Hl1 & _).
      apply elem_of_app in Hs' as [Hs' | Hs'].
      - exfalso. eapply Hl1; [by apply list_elem_of_fmap_2 |].
        rewrite Hidt. apply list_elem_of_here.
      - apply elem_of_cons in Hs' as [-> | Hs']; [done |].
        exfalso. eapply Forall_forall in Hl2; [| exact Hs']. done. }
    rewrite Hlast, Heq, String.eqb_refl in Hne. done.
Qed.

Lemma diffStories_last_baseline_entry_witness :
  StoryTransition.mk "US-1" "Story US-1" "claimed by agent-1" "available"
  ∈ Changes.diffStories
      (Some (PRD.mk "demo" None None
               [Ex.story "US-1" true Null None;
                Ex.story "US-1" false (Value "agent-1") None]))
      (Some Ex.ledger0).
Proof.
  apply (proj1 (diffStories_last_baseline_entry
                  (PRD.mk "demo" None None
                     [Ex.story "US-1" true Null None;
                      Ex.story "US-1" false (Value "agent-1") None])
                  Ex.ledger0 [Ex.story "US-1" true Null None]
                  (Ex.story "US-1" false (Value "agent-1") None) []
                  (Ex.story "US-1" false Null None)
                  eq_refl (Forall_nil_2 _) (list_elem_of_here _ _) eq_refl)).
  vm_compute. discriminate.
Defined.

End diff_more.

(** ** The story board *)

Section board.

Implicit Types (s : UserStory.t) (prd : PRD.t).

Lemma groups_partition hv (l : list UserStory.t) :
  List.filter (fun s => negb (UserStory.passes s)
                        && negb (truthy (UserStory.claimed_by s))) l
  ++ List.filter (fun s => negb (UserStory.passes s)
                           && truthy (UserStory.claimed_by s)) l
  ++ List.filter (fun s => UserStory.passes s && hv
                           && negb (UserStory.is_verified s)) l
  ++ List.filter (fun s => UserStory.passes s
                           && (UserStory.is_verified s || negb hv)) l
  ≡ₚ l.
Proof.
  induction l as [|s l IH]; [done |]. simpl.
  destruct (UserStory.passes s), (UserStory.is_verified s), hv,
    (truthy (UserStory.claimed_by s)); simpl;
    first [ by rewrite IH
          | (rewrite <- IH at 3; by rewrite <- !Permutation_middle)
          | (rewrite <- IH at 4; by rewrite <- !Permutation_middle)
          | (rewrite <- IH at 5; by rewrite <- !Permutation_middle) ].
Qed.

(** X5. The status tool puts every story of the ledger in exactly one of
    its four groups. *)
Theorem status_board_partition prd :
  Board.available (Status.stories (Some prd))
  ++ Board.claimed (Status.stories (Some prd))
  ++ Board.verifying (Status.stories (Some prd))
  ++ Board.done (Status.stories (Some prd))
  ≡ₚ PRD.userStories prd.
Proof.
  unfold Status.stories. rewrite foldl_pushStory. simpl.
  apply groups_partition.
Qed.

(** X6. So does the ledger reader, and the four counts of its summary add
    up to the total. *)
Theorem reader_groups_partition prd :
  PrdRead.available prd ++ PrdRead.claimed prd
  ++ PrdRead.effectiveVerifying prd ++ PrdRead.effectiveDone prd
  ≡ₚ PRD.userStories prd
  /\ (length (PrdRead.available prd) + length (PrdRead.claimed prd)
      + length (PrdRead.effectiveVerifying prd)
      + length (PrdRead.effectiveDone prd)
      = length (PRD.userStories prd))%nat.
Proof.
  assert (PrdRead.available prd ++ PrdRead.claimed prd
          ++ PrdRead.effectiveVerifying prd ++ PrdRead.effectiveDone prd
          ≡ₚ PRD.userStories prd) as Hperm.
  { destruct (status_board_is_reader_board prd) as (Hd & Hv & Hc & Ha).
    rewrite <- Hd, <- Hv, <- Hc, <- Ha, sort_perm.
    apply status_board_partition. }
  split; [done |].
  apply Permutation_length in Hperm. rewrite !length_app in Hperm. lia.
Qed.

Lemma StronglySorted_weaken {A} (R R' : relation A) (l : list A) :
  (forall a b, R a b -> R' a b) -> StronglySorted R l -> StronglySorted R' l.
Proof.
  intros HR. induction 1 as [|a l Hl IH Ha]; constructor; [done |].
  eapply Forall_impl; [exact Ha | apply HR].
Qed.

(** X7. The available stories are listed by priority, most urgent (lowest)
    first, and they are the stories that neither pass nor are claimed. *)
Theorem reader_available_by_priority prd :
  StronglySorted (fun a b => UserStory.priority a <= UserStory.priority b)
                 (PrdRead.available prd)
  /\ forall s, s ∈ PrdRead.available prd <->
               s ∈ PRD.userStories prd /\
               UserStory.passes s = false /\
               truthy (UserStory.claimed_by s) = false.
Proof.
  unfold PrdRead.available. split.
  - pose proof (sort_sorted PrdRead.byPriority
                  (fun s => - UserStory.priority s)) as Hsorted.
    eapply (StronglySorted_weaken (keyGe (fun s => - UserStory.priority s))).
    + unfold keyGe. intros a b. lia.
    + apply Hsorted. intros a b. unfold PrdRead.byPriority. lia.
  - intros s. rewrite elem_of_sort, list_elem_of_In, List.filter_In,
      <- list_elem_of_In, andb_true_iff, !negb_true_iff. tauto.
Qed.

(** The [progress] line written from the groups of the board. *)
Lemma progress_counts prd :
  let board := Status.stories (Some prd) in
  let total := JS.toString (Z.of_nat (length (PRD.userStories prd))) in
  Status.progressOf (Some prd) =
  if existsb UserStory.has_verified (PRD.userStories prd)
  then JS.toString (Z.of_nat (length (Board.done board))) +:+ "/" +:+ total
       +:+ " verified, "
       +:+ JS.toString (Z.of_nat (length (Board.done board)
                                  + length (Board.verifying board)))
       +:+ "/" +:+ total +:+ " built"
  else JS.toString (Z.of_nat (length (Board.done board))) +:+ "/" +:+ total
       +:+ " stories complete".
Proof.
  cbv zeta. unfold Status.progressOf, Status.progress, Status.stories.
  rewrite foldl_pushStory. simpl.
  set (l := PRD.userStories prd).
  assert (forall hv,
             length (List.filter UserStory.passes l)
             = (length (List.filter
                          (fun s => UserStory.passes s
                                    && (UserStory.is_verified s || negb hv)) l)
                + length (List.filter
                            (fun s => UserStory.passes s && hv
                                      && negb (UserStory.is_verified s)) l))%nat)
    as Hbuilt.
  { intros hv. clearbody l. induction l as [|s l IH]; [done |]. simpl.
    destruct (UserStory.passes s), (UserStory.is_verified s); simpl;
      rewrite ?IH; destruct hv; simpl; lia. }
  assert (forall hv,
             List.filter
               (fun s => UserStory.passes s
                         && (UserStory.is_verified s || negb hv)) l
             = if hv
               then List.filter
                      (fun s => UserStory.passes s && UserStory.is_verified s) l
               else List.filter UserStory.passes l) as Hdone.
  { intros [|]; apply List.filter_ext; intros s; simpl.
    - by rewrite orb_false_r.
    - by rewrite orb_true_r, andb_true_r. }
  destruct (existsb _ l).
  - rewrite (Hbuilt true), (Hdone true). done.
  - rewrite (Hdone false). done.
Qed.

End board.

(** ** The status tool *)

Section status_tool.

Ltac unfold_result :=
  unfold mbind, result_bind, mret, result_ret, fmap, result_fmap,
    catch, try_catch.

(** X8. The status tool guards neither docker ps nor the second attempt at
    the recent commits, and it reads the stories of whatever truthy value
    its reader returns: the call rejects exactly when docker cannot be
    spawned, or when git can be spawned neither in the shared repository
    nor in the project directory, or when the reader returns a truthy
    value without stories, such as the object parsed from the text {}.
    (The values parsed are those of [json]: a ledger, a falsy value, or a
    value without stories.) *)
Theorem status_rejects_iff w project_dir :
  Status.handler w project_dir = Throws <->
  Exec.exec w Changes.dockerPs None = Throws \/
  (Exec.exec w Status.recentAll (Some (project_dir +:+ "/.ralph/repo.git")) = Throws
   /\ Exec.exec w Status.recentHere (Some project_dir) = Throws) \/
  Status.readPrdFromBareRepo w project_dir = Returns NoStories.
Proof.
  unfold Status.handler.
  change (Status.readPrdFromBareRepo w project_dir)
    with (PrdRead.readPrd w project_dir).
  rewrite readPrd_total. unfold_result.
  destruct (Exec.exec w Changes.dockerPs None) as [docker|]; [| by split; [left |]].
  destruct (Exec.exec w Status.recentAll _) as [commits|].
  - destruct (Exec.resolveLatestCommit w _);
      destruct (Spec.readLedger w project_dir); simpl;
      split; first [done | by right; right | intros [? | [[? _] | ?]]; done].
  - destruct (Exec.exec w Status.recentHere _) as [commits|].
    + destruct (Exec.resolveLatestCommit w _);
        destruct (Spec.readLedger w project_dir); simpl;
        split; first [done | by right; right | intros [? | [[_ ?] | ?]]; done].
    + split; [by right; left | done].
Qed.

Example status_rejects_without_stories :
  Status.handler (Sim.world ExMore.emptyObjectAtRef) "/p" = Throws.
Proof. reflexivity. Qed.

(** X9. In the document the status tool returns, the board is that of the
    value its reader returns, which is what is parsed at the resolved ref
    and, only when nothing is parsed there, the copy on disk.  For a
    ledger the progress line counts the groups of the board (done, and
    done plus verifying, out of all the stories); for null the board is
    empty and the line reads "unknown".  stop_requested tells whether the
    stop file is there and not empty. *)
Theorem status_document w project_dir r :
  Status.handler w project_dir = Returns r ->
  Status.readPrdFromBareRepo w project_dir
  = Returns (Spec.readLedger w project_dir) /\
  (Spec.readLedger w project_dir = Falsy ->
   StatusResult.stories r = Board.mk [] [] [] [] /\
   StatusResult.progress r = "unknown") /\
  (forall prd,
      Spec.readLedger w project_dir = Ledger prd ->
      let total := JS.toString (Z.of_nat (length (PRD.userStories prd))) in
      let done := length (Board.done (StatusResult.stories r)) in
      let verifying := length (Board.verifying (StatusResult.stories r)) in
      StatusResult.stories r = Status.stories (Some prd) /\
      StatusResult.progress r =
      if existsb UserStory.has_verified (PRD.userStories prd)
      then JS.toString (Z.of_nat done) +:+ "/" +:+ total +:+ " verified, "
           +:+ JS.toString (Z.of_nat (done + verifying)) +:+ "/" +:+ total
           +:+ " built"
      else JS.toString (Z.of_nat done) +:+ "/" +:+ total +:+ " stories complete") /\
  Spec.readLedger w project_dir <> NoStories /\
  (StatusResult.stop_requested r = true <->
   exists st, stat w (project_dir +:+ "/.ralph/stop_requested") = Returns st /\
              0 < FileInfo.size st).
Proof.
  unfold Status.handler.
  change (Status.readPrdFromBareRepo w project_dir)
    with (PrdRead.readPrd w project_dir).
  rewrite readPrd_total. unfold_result. intros H.
  destruct (Exec.exec w Changes.dockerPs None) as [docker|]; [| done].
  destruct (match Exec.exec w Status.recentAll _ with
            | Returns a => Returns a
            | Throws => Exec.exec w Status.recentHere (Some project_dir)
            end) as [commits|]; [| done].
  destruct (match Exec.resolveLatestCommit w _ with
            | Returns a => Returns a
            | Throws => Returns "unknown"
            end) as [latest|]; [| done].
  destruct (Spec.readLedger w project_dir) as [|prd|] eqn:Hledger;
    simpl in H; [| | done]; injection H as <-; simpl.
  - split; [done |]. split; [done |]. split; [done |]. split; [done |].
    destruct (stat w _) as [st|]; split.
    + intros Hpos%Z.ltb_lt. eauto.
    + intros (st' & [= <-] & Hpos). by apply Z.ltb_lt.
    + done.
    + by intros (st' & [=] & _).
  - split; [done |]. split; [done |]. split.
    { intros prd' [= <-]. split; [done |]. apply progress_counts. }
    split; [done |].
    destruct (stat w _) as [st|]; split.
    + intros Hpos%Z.ltb_lt. eauto.
    + intros (st' & [= <-] & Hpos). by apply Z.ltb_lt.
    + done.
    + by intros (st' & [=] & _).
Qed.

Lemma status_document_witness :
  exists r,
    Status.handler (Sim.world ExMore.stopFlagged) "/p" = Returns r /\
    StatusResult.progress r = "0/1 stories complete" /\
    StatusResult.stop_requested r = true.
Proof.
  eexists. split; [reflexivity |].
  pose proof (status_document (Sim.world ExMore.stopFlagged) "/p" _ eq_refl)
    as (_ & _ & _ & _ & Hstop).
  split; [reflexivity |].
  apply Hstop. eexists. split; reflexivity.
Defined.

(** With null at the resolved ref and a ledger on disk the board is
    empty. *)
Example status_null_at_ref :
  exists r,
    Status.handler (Sim.world ExMore.nullAtRef) "/p" = Returns r /\
    StatusResult.stories r = Board.mk [] [] [] [] /\
    StatusResult.progress r = "unknown".
Proof. eexists. repeat split; reflexivity. Qed.

End status_tool.

(** ** Editing the ledger *)

Section update.

Implicit Types (s : UserStory.t) (prd : PRD.t) (story : StoryInput.t).

Lemma find_id_None id (l : list UserStory.t) :
  List.find (fun s => String.eqb (UserStory.id s) id) l = None <->
  Forall (fun s => UserStory.id s <> id) l.
Proof.
  induction l as [|s l IH]; simpl; [by split; [constructor |] |].
  rewrite Forall_cons, <- IH.
  destruct (String.eqb_spec (UserStory.id s) id); split; try done; tauto.
Qed.

Lemma findStory_None id (l : list UserStory.t) :
  PrdUpdate.findStory id l = None <-> Forall (fun s => UserStory.id s <> id) l.
Proof.
  induction l as [|s l IH]; simpl; [by split; [constructor |] |].
  rewrite Forall_cons, <- IH.
  destruct (String.eqb_spec (UserStory.id s) id);
    [split; [done | by intros [? _]] |].
  destruct (PrdUpdate.findStory id l) as [[i found]|]; simpl.
  - split; [done | by intros [_ ?]].
  - split; [intros _; by split | done].
Qed.

(** [findStory] finds the first story with the identifier. *)
Lemma findStory_Some id (l : list UserStory.t) i s :
  PrdUpdate.findStory id l = Some (i, s) ->
  exists pre post,
    l = pre ++ s :: post /\ length pre = i /\ UserStory.id s = id /\
    Forall (fun q => UserStory.id q <> id) pre.
Proof.
  revert i. induction l as [|q l IH]; intros i; simpl; [done |].
  destruct (String.eqb_spec (UserStory.id q) id) as [Hq|Hq].
  - intros [= <- <-]. by exists [], l.
  - destruct (PrdUpdate.findStory id l) as [[j found]|] eqn:Hf; [| done].
    simpl. intros [= <- <-].
    destruct (IH j eq_refl) as (pre & post & -> & <- & Hid & Hpre).
    exists (q :: pre), post. repeat split; try done. by constructor.
Qed.

Lemma findStory_first id pre s post :
  UserStory.id s = id ->
  Forall (fun q => UserStory.id q <> id) pre ->
  PrdUpdate.findStory id (pre ++ s :: post) = Some (length pre, s).
Proof.
  intros Hs. induction 1 as [|q pre Hq Hpre IH]; simpl.
  - by rewrite <- Hs, String.eqb_refl.
  - apply String.eqb_neq in Hq. by rewrite Hq, IH.
Qed.

(** X10. add_story is accepted exactly when the title and the description
    are given and not empty, the acceptance criteria are given, and no
    story of the ledger has the identifier yet. *)
Theorem addStory_accepts_iff prd story :
  (exists prd' msg, PrdUpdate.addStory prd story = inr (prd', msg)) <->
  truthy_opt (StoryInput.title story) = true /\
  truthy_opt (StoryInput.description story) = true /\
  is_Some (StoryInput.acceptanceCriteria story) /\
  Forall (fun s => UserStory.id s <> StoryInput.id story) (PRD.userStories prd).
Proof.
  unfold PrdUpdate.addStory, truthy_opt. rewrite <- find_id_None.
  destruct (StoryInput.title story) as [title|],
    (StoryInput.description story) as [description|],
    (StoryInput.acceptanceCriteria story) as [criteria|];
    try (split; [by intros (? & ? & ?) | intros (? & ? & [? ?] & ?); done]).
  destruct (String.eqb title ""), (String.eqb description ""); simpl;
    try (split; [by intros (? & ? & ?) | intros (? & ? & ? & ?); done]).
  destruct (List.find _ _).
  - split; [by intros (? & ? & ?) | intros (? & ? & ? & ?); done].
  - split; [eauto 6 | intros; eauto].
Qed.

Lemma maxPriority_bound (l : list UserStory.t) :
  0 <= PrdUpdate.maxPriority l /\
  Forall (fun s => UserStory.priority s <= PrdUpdate.maxPriority l) l.
Proof.
  induction l as [|s l [IH0 IH]]; [split; [done | constructor] |].
  change (PrdUpdate.maxPriority (s :: l))
    with (Z.max (UserStory.priority s) (PrdUpdate.maxPriority l)).
  split; [lia |]. constructor; [lia |].
  eapply Forall_impl; [exact IH |]. simpl. intros q Hq. lia.
Qed.

Lemma maxPriority_below (l : list UserStory.t) (b : Z) :
  0 < b -> Forall (fun s => UserStory.priority s < b) l ->
  PrdUpdate.maxPriority l < b.
Proof.
  intros Hb. induction 1 as [|s l Hs _ IH]; [done |].
  change (PrdUpdate.maxPriority (s :: l))
    with (Z.max (UserStory.priority s) (PrdUpdate.maxPriority l)).
  lia.
Qed.

Lemma succ_bounds x :
  0 <= x -> 1 <= JS.succ x /\ x <= JS.succ x /\ (x < 2 ^ 53 -> JS.succ x = x + 1).
Proof.
  intros Hx. unfold JS.succ.
  destruct (Z.ltb_spec x (2 ^ 53)); [lia |].
  destruct (_ && _); lia.
Qed.

(** X11. An accepted add_story appends one story and changes nothing
    else: the stories that were there stay in place and unique identifiers
    stay unique.  A story given no priority gets one that is at least 1 and
    not below the priority of any other story; it is above all of them as
    long as these are below 2^53, where adding 1 is exact. *)
Theorem addStory_appends prd story prd' msg :
  PrdUpdate.addStory prd story = inr (prd', msg) ->
  exists n,
    prd' = PrdUpdate.withStories prd (PRD.userStories prd ++ [n]) /\
    UserStory.id n = StoryInput.id story /\
    (NoDup (UserStory.id <$> PRD.userStories prd) ->
     NoDup (UserStory.id <$> PRD.userStories prd')) /\
    (StoryInput.priority story = None ->
     1 <= UserStory.priority n /\
     Forall (fun s => UserStory.priority s <= UserStory.priority n)
            (PRD.userStories prd) /\
     (Forall (fun s => UserStory.priority s < 2 ^ 53) (PRD.userStories prd) ->
      Forall (fun s => UserStory.priority s < UserStory.priority n)
             (PRD.userStories prd))).
Proof.
  intros Hadd.
  assert (Forall (fun s => UserStory.id s <> StoryInput.id story)
                 (PRD.userStories prd)) as Hfresh
    by (eapply addStory_accepts_iff; eauto).
  unfold PrdUpdate.addStory in Hadd.
  destruct (StoryInput.title story) as [title|]; [| done].
  destruct (StoryInput.description story) as [description|]; [| done].
  destruct (StoryInput.acceptanceCriteria story) as [criteria|]; [| done].
  destruct (_ || _); [done |].
  destruct (List.find _ _); [done |].
  injection Hadd as <- _.
  eexists. split; [reflexivity |]. simpl. split; [done |]. split.
  - intros Hnd. rewrite fmap_app. apply NoDup_app. split; [done |].
    split; [| apply NoDup_singleton].
    intros x (s & -> & Hs)%list_elem_of_fmap Hx.
    apply list_elem_of_singleton in Hx.
    by eapply Forall_forall in Hfresh.
  - intros ->. simpl.
    destruct (maxPriority_bound (PRD.userStories prd)) as [H0 Hmax].
    destruct (succ_bounds _ H0) as (H1 & Hle & Hexact).
    split; [done |]. split.
    + eapply Forall_impl; [exact Hmax |]. simpl. intros s Hs. lia.
    + intros Hsafe. rewrite Hexact by by apply maxPriority_below.
      eapply Forall_impl; [exact Hmax |]. simpl. intros s Hs. lia.
Qed.

Lemma addStory_appends_witness :
  exists n,
    PrdUpdate.withStories Ex2.ledger2
      (PRD.userStories Ex2.ledger2
         ++ [UserStory.mk "US-3" "Export grades" "Export the grades as CSV"
               ["a CSV file is written"] 2 false (Some "") Null Null
               (Some false) Null Null Null])
    = PrdUpdate.withStories Ex2.ledger2 (PRD.userStories Ex2.ledger2 ++ [n]) /\
    UserStory.id n = StoryInput.id ExMore.us3 /\
    (NoDup (UserStory.id <$> PRD.userStories Ex2.ledger2) ->
     NoDup (UserStory.id <$>
              PRD.userStories
                (PrdUpdate.withStories Ex2.ledger2
                   (PRD.userStories Ex2.ledger2
                      ++ [UserStory.mk "US-3" "Export grades"
                            "Export the grades as CSV"
                            ["a CSV file is written"] 2 false (Some "") Null
                            Null (Some false) Null Null Null])))) /\
    (StoryInput.priority ExMore.us3 = None ->
     1 <= UserStory.priority n /\
     Forall (fun s => UserStory.priority s <= UserStory.priority n)
            (PRD.userStories Ex2.ledger2) /\
     (Forall (fun s => UserStory.priority s < 2 ^ 53)
             (PRD.userStories Ex2.ledger2) ->
      Forall (fun s => UserStory.priority s < UserStory.priority n)
             (PRD.userStories Ex2.ledger2))).
Proof.
  apply (addStory_appends Ex2.ledger2 ExMore.us3 _
           "[mcp] Add story US-3: Export grades").
  reflexivity.
Defined.

(** From 2^53 on the sum is rounded: the new story shares the largest
    priority. *)
Example addStory_at_2_53 :
  exists prd' msg,
    PrdUpdate.addStory
      (PRD.mk "demo" None None
         [UserStory.mk "US-1" "t" "d" [] (2 ^ 53) false None Null Null None
            Null Null Null])
      ExMore.us3
    = inr (prd', msg) /\
    UserStory.priority <$> PRD.userStories prd' = [2 ^ 53; 2 ^ 53].
Proof. eexists _, _. split; reflexivity. Qed.

(** X12. remove_story fails exactly when no story has the identifier;
    otherwise it takes out the first story with that identifier, names its
    title in the commit message, and leaves the others as they are and in
    their order. *)
Theorem removeStory_spec prd story :
  match PrdUpdate.removeStory prd story with
  | inl error =>
      error = "Story " +:+ StoryInput.id story +:+ " not found" /\
      Forall (fun s => UserStory.id s <> StoryInput.id story)
             (PRD.userStories prd)
  | inr (prd', msg) =>
      exists pre s post,
        PRD.userStories prd = pre ++ s :: post /\
        UserStory.id s = StoryInput.id story /\
        Forall (fun q => UserStory.id q <> StoryInput.id story) pre /\
        prd' = PrdUpdate.withStories prd (pre ++ post) /\
        msg = "[mcp] Remove story " +:+ StoryInput.id story +:+ ": "
              +:+ UserStory.title s
  end.
Proof.
  unfold PrdUpdate.removeStory.
  destruct (PrdUpdate.findStory _ _) as [[idx removed]|] eqn:Hfind.
  - apply findStory_Some in Hfind as (pre & post & Hl & <- & Hid & Hpre).
    exists pre, removed, post. repeat split; try done.
    rewrite Hl. f_equal.
    by rewrite delete_middle.
  - split; [done |]. by apply findStory_None.
Qed.

(** X13. Removing the story that add_story has just added gives back the
    ledger as it was. *)
Theorem remove_after_add prd story prd' msg :
  PrdUpdate.addStory prd story = inr (prd', msg) ->
  exists msg', PrdUpdate.removeStory prd' story = inr (prd, msg').
Proof.
  intros Hadd.
  assert (Forall (fun s => UserStory.id s <> StoryInput.id story)
                 (PRD.userStories prd)) as Hfresh
    by (eapply addStory_accepts_iff; eauto).
  apply addStory_appends in Hadd as (n & -> & Hid & _).
  unfold PrdUpdate.removeStory. simpl.
  rewrite (findStory_first _ _ n []) by done.
  eexists. f_equal. f_equal.
  rewrite delete_middle, app_nil_r. by destruct prd.
Qed.

Lemma remove_after_add_witness :
  exists msg',
    PrdUpdate.removeStory
      (PrdUpdate.withStories Ex2.ledger2
         (PRD.userStories Ex2.ledger2
            ++ [UserStory.mk "US-3" "Export grades" "Export the grades as CSV"
                  ["a CSV file is written"] 2 false (Some "") Null Null
                  (Some false) Null Null Null]))
      ExMore.us3
    = inr (Ex2.ledger2, msg').
Proof.
  apply (remove_after_add Ex2.ledger2 ExMore.us3 _
           "[mcp] Add story US-3: Export grades").
  reflexivity.
Defined.

End update.

Section update_more.

Implicit Types (s : UserStory.t) (prd : PRD.t) (story : StoryInput.t).

Lemma applyEdit_nothing s id :
  PrdUpdate.applyEdit s
    (StoryInput.mk id None None None None None None Undefined Undefined Undefined)
  = s.
Proof. by destruct s. Qed.

(** X14. edit_story fails exactly when no story has the identifier;
    otherwise it rewrites the first story with that identifier and no
    other.  Whatever the fields given, the identifiers, the completion
    flags and the claims of the ledger stay as they were, story by story;
    with no field given the ledger is unchanged. *)
Theorem editStory_spec prd story keys :
  match PrdUpdate.editStory prd story keys with
  | inl error =>
      error = "Story " +:+ StoryInput.id story +:+ " not found" /\
      Forall (fun s => UserStory.id s <> StoryInput.id story)
             (PRD.userStories prd)
  | inr (prd', msg) =>
      (exists pre s post,
          PRD.userStories prd = pre ++ s :: post /\
          UserStory.id s = StoryInput.id story /\
          Forall (fun q => UserStory.id q <> StoryInput.id story) pre /\
          prd' = PrdUpdate.withStories prd
                   (pre ++ PrdUpdate.applyEdit s story :: post)) /\
      UserStory.id <$> PRD.userStories prd' = UserStory.id <$> PRD.userStories prd /\
      UserStory.passes <$> PRD.userStories prd'
      = UserStory.passes <$> PRD.userStories prd /\
      UserStory.claimed_by <$> PRD.userStories prd'
      = UserStory.claimed_by <$> PRD.userStories prd /\
      UserStory.claimed_at <$> PRD.userStories prd'
      = UserStory.claimed_at <$> PRD.userStories prd /\
      (story = StoryInput.mk (StoryInput.id story) None None None None None None
                 Undefined Undefined Undefined ->
       prd' = prd)
  end.
Proof.
  unfold PrdUpdate.editStory.
  destruct (PrdUpdate.findStory _ _) as [[idx existing]|] eqn:Hfind.
  - apply findStory_Some in Hfind as (pre & post & Hl & <- & Hid & Hpre).
    assert (<[length pre := PrdUpdate.applyEdit existing story]>
              (PRD.userStories prd)
            = pre ++ PrdUpdate.applyEdit existing story :: post) as Hins.
    { rewrite Hl, insert_app_r_alt by done. by rewrite Nat.sub_diag. }
    rewrite Hins. simpl. rewrite Hl, !fmap_app, !fmap_cons. simpl.
    split; [by exists pre, existing, post |].
    do 4 (split; [done |]).
    intros ->. rewrite applyEdit_nothing, <- Hl. by destruct prd.
  - split; [done |]. by apply findStory_None.
Qed.



(** X28. When the text of prd.json at HEAD is JSON but not a ledger
    (null, or a value without stories such as {}), the update tool answers
    with no error document: reading the stories throws and the call
    rejects.  The one exception is an add_story whose title, description
    or acceptance criteria are missing, which is refused before the ledger
    is looked at. *)
Theorem update_without_ledger w project_dir action story keys st shown v head :
  stat w (project_dir +:+ "/.ralph/repo.git") = Returns st ->
  Exec.exec w ["git"; "show"; "HEAD:prd.json"]
    (Some (project_dir +:+ "/.ralph/repo.git")) = Returns shown ->
  ExecResult.success shown = true ->
  JSON_parse w (ExecResult.stdout shown) = Returns v ->
  (forall prd, v <> Ledger prd) ->
  Exec.exec w ["git"; "symbolic-ref"; "HEAD"]
    (Some (project_dir +:+ "/.ralph/repo.git")) = Returns head ->
  PrdUpdate.handler w project_dir action story keys
  = match action with
    | Action.add_story =>
        if PrdUpdate.missingFields story
        then Returns
               (UpdateResponse.Error
                  "add_story requires title, description, and acceptanceCriteria"
                  None, [])
        else Throws
    | _ => Throws
    end.
Proof.
  intros Hstat Hshow Hok Hparse Hv Hhead.
  unfold PrdUpdate.handler. rewrite Hstat, Hshow. simpl.
  rewrite Hok, Hparse. simpl. rewrite Hhead. simpl.
  assert (storiesOf v = Throws) as Hnone
    by (destruct v as [|prd|]; [done | by destruct (Hv prd) | done]).
  destruct action; simpl; unfold PrdUpdate.addStoryParsed;
    [destruct (PrdUpdate.missingFields story); [done |] | |];
    by rewrite Hnone.
Qed.

Lemma update_without_ledger_witness :
  PrdUpdate.handler (Sim.world ExMore.nullAtRef) "/p" Action.remove_story
    (ExMore.justId "US-1") []
  = Throws.
Proof.
  apply (update_without_ledger (Sim.world ExMore.nullAtRef) "/p"
           Action.remove_story (ExMore.justId "US-1") [] (FileInfo.mk None 0)
           (Git.ok "null") Falsy (Git.ok (Git.lines ["refs/heads/main"]))).
  - reflexivity.
  - reflexivity.
  - reflexivity.
  - reflexivity.
  - discriminate.
  - reflexivity.
Defined.

End update_more.

(** ** Lines *)

Section lines.

Implicit Types (s p : string) (c sep : ascii) (l : list string).

Lemma split_not_nil sep s : JS.split sep s <> [].
Proof.
  destruct s as [|c s]; simpl; [done |].
  destruct (Ascii.eqb c sep); [done |]. by destruct (JS.split sep s).
Qed.

Lemma join_cons_cons sep p q l :
  JS.join (String sep "") (p :: q :: l)
  = p +:+ String sep (JS.join (String sep "") (q :: l)).
Proof. reflexivity. Qed.

(** Joining the pieces of a string gives the string back. *)
Lemma join_split sep s : JS.join (String sep "") (JS.split sep s) = s.
Proof.
  induction s as [|c s IH]; [done |]. simpl.
  pose proof (split_not_nil sep s) as Hne.
  destruct (Ascii.eqb_spec c sep) as [-> | Hc].
  - destruct (JS.split sep s) as [|q l]; [done |].
    by rewrite join_cons_cons, IH.
  - destruct (JS.split sep s) as [|q l]; [done |].
    destruct l as [|q' l].
    + simpl in *. by rewrite IH.
    + rewrite join_cons_cons in *. by rewrite append_cons, IH.
Qed.

Lemma split_lacks sep p : lacks sep p = true -> JS.split sep p = [p].
Proof.
  unfold lacks. induction p as [|c p IH]; [done |]. simpl.
  intros [Hc Hp]%andb_true_iff. apply negb_true_iff in Hc.
  by rewrite Hc, IH.
Qed.

Lemma split_app_sep sep p s :
  lacks sep p = true ->
  JS.split sep (p +:+ String sep s) = p :: JS.split sep s.
Proof.
  unfold lacks. induction p as [|c p IH]; simpl.
  - intros _. by rewrite Ascii.eqb_refl.
  - intros [Hc Hp]%andb_true_iff. apply negb_true_iff in Hc.
    rewrite ?append_cons. simpl. by rewrite Hc, IH.
Qed.

(** The pieces of a string do not contain the separator. *)
Lemma split_pieces_lack sep s : Forall (fun p => lacks sep p = true) (JS.split sep s).
Proof.
  induction s as [|c s IH]; simpl; [by repeat constructor |].
  destruct (Ascii.eqb c sep) eqn:Hc; [by constructor |].
  pose proof (split_not_nil sep s) as Hne.
  destruct (JS.split sep s) as [|q l]; [done |].
  apply Forall_cons in IH as [Hq Hl]. constructor; [| done].
  unfold lacks in *. simpl. by rewrite Hc.
Qed.

(** Splitting the join of pieces that lack the separator gives the pieces. *)
Lemma split_join sep l :
  l <> [] -> Forall (fun p => lacks sep p = true) l ->
  JS.split sep (JS.join (String sep "") l) = l.
Proof.
  intros Hne Hl. induction Hl as [|p l Hp Hl IH]; [done |].
  destruct l as [|q l].
  - simpl. by apply split_lacks.
  - rewrite join_cons_cons, split_app_sep by done. by rewrite IH.
Qed.

Lemma join_app sep l1 l2 :
  l1 <> [] -> l2 <> [] ->
  JS.join (String sep "") (l1 ++ l2)
  = JS.join (String sep "") l1 +:+ String sep (JS.join (String sep "") l2).
Proof.
  intros Hl1 Hl2. induction l1 as [|p l1 IH]; [done |].
  destruct l1 as [|q l1].
  - destruct l2 as [|r l2]; [done |]. reflexivity.
  - change ((p :: q :: l1) ++ l2) with (p :: q :: (l1 ++ l2)).
    rewrite !join_cons_cons.
    change (q :: (l1 ++ l2)) with ((q :: l1) ++ l2).
    rewrite IH by done.
    by rewrite string_app_assoc, append_cons.
Qed.

Lemma length_split sep s : length (JS.split sep s) = S (occurrences sep s).
Proof.
  unfold occurrences. induction s as [|c s IH]; [done |]. simpl.
  destruct (Ascii.eqb c sep); simpl; [by rewrite IH |].
  pose proof (split_not_nil sep s).
  destruct (JS.split sep s); [done |]. simpl in *. done.
Qed.

(** The pieces of a file from the [k]-th on, joined again, are an end of
    the file that starts at the start of a line: what precedes it in the
    file is the first [k] pieces, joined, and a newline. *)
Lemma join_drop_lines text k :
  (k < length (JS.split "010" text))%nat ->
  JS.split "010" (JS.join (String "010" "") (drop k (JS.split "010" text)))
  = drop k (JS.split "010" text) /\
  ((0 < k)%nat ->
   text = JS.join (String "010" "") (take k (JS.split "010" text))
          +:+ String "010"
                (JS.join (String "010" "") (drop k (JS.split "010" text)))).
Proof.
  pose proof (split_pieces_lack "010" text) as Hlack.
  pose proof (join_split "010" text) as Hjoin.
  set (lines := JS.split "010" text) in *. intros Hk.
  assert (drop k lines <> []) as Hkept.
  { intros Hnil%(f_equal length). rewrite length_drop in Hnil. simpl in Hnil. lia. }
  split.
  - apply split_join; [done |].
    rewrite <- (take_drop k lines) in Hlack. by apply Forall_app in Hlack as [_ ?].
  - intros Hpos.
    assert (take k lines <> []) as Hsome.
    { intros Hnil%(f_equal length). rewrite length_take in Hnil. simpl in Hnil. lia. }
    rewrite <- Hjoin at 1. rewrite <- (take_drop k lines) at 1.
    by rewrite join_app.
Qed.

(** X16. The summary of a log is made of the last ten pieces of the file
    cut at its newlines, and of all the pieces when there are ten or
    fewer; the empty piece after a final newline counts as one.  The
    summary is an end of the file that starts at the start of a line: the
    file is the earlier pieces, joined by newlines, a newline, and the
    summary. *)
Theorem tailLines_is_end_of_file content :
  JS.split "010" (Changes.tailLines content)
  = drop (length (JS.split "010" content) - 10) (JS.split "010" content) /\
  length (JS.split "010" (Changes.tailLines content))
  = Nat.min 10 (length (JS.split "010" content)) /\
  ((length (JS.split "010" content) <= 10)%nat ->
   Changes.tailLines content = content) /\
  ((10 < length (JS.split "010" content))%nat ->
   content
   = JS.join (String "010" "")
       (take (length (JS.split "010" content) - 10) (JS.split "010" content))
     +:+ String "010" (Changes.tailLines content)).
Proof.
  unfold Changes.tailLines, JS.slice_last.
  pose proof (split_not_nil "010" content) as Hne.
  set (lines := JS.split "010" content) in *.
  set (n := (length lines - 10)%nat).
  assert (n < length lines)%nat as Hn
    by (destruct lines; [done | subst n; simpl; lia]).
  destruct (join_drop_lines content n Hn) as [Hsplit Hcut].
  fold lines in Hsplit, Hcut.
  split; [done |]. split; [| split].
  - rewrite Hsplit, length_drop. subst n. lia.
  - intros Hshort. replace n with 0%nat by (subst n; lia).
    rewrite drop_0. apply join_split.
  - intros Hlong. apply Hcut. subst n. lia.
Qed.

Lemma tailLines_is_end_of_file_witness :
  Changes.tailLines (ExLogs.text "1") = ExLogs.text "1".
Proof.
  apply (proj1 (proj2 (proj2 (tailLines_is_end_of_file (ExLogs.text "1"))))).
  vm_compute. lia.
Defined.

(** A file of ten lines that ends in a newline has eleven pieces: its
    first line is not in the summary. *)
Example tailLines_ten_lines_and_a_newline :
  Changes.tailLines
    (JS.join (String "010" "")
       ["1"; "2"; "3"; "4"; "5"; "6"; "7"; "8"; "9"; "10"; ""])
  = JS.join (String "010" "") ["2"; "3"; "4"; "5"; "6"; "7"; "8"; "9"; "10"; ""].
Proof. reflexivity. Qed.

End lines.

(** ** The log reader *)

Section log_reader.

Lemma mapM_Returns_inv {A B} (f : A -> result B) (l : list A) (r : list B) :
  mapM f l = Returns r -> Forall2 (fun x y => f x = Returns y) l r.
Proof.
  revert r. induction l as [|x l IH]; intros r; simpl.
  - intros [= <-]. constructor.
  - destruct (f x) as [y|] eqn:Hy; [| done]. simpl.
    destruct (mapM f l) as [r'|]; [| done]. simpl. intros [= <-].
    constructor; [done | by apply IH].
Qed.

Lemma mapM_Throws {A B} (f : A -> result B) (l : list A) :
  mapM f l = Throws <-> exists x, x ∈ l /\ f x = Throws.
Proof.
  induction l as [|x l IH]; simpl.
  - split; [done |]. intros (x & Hx & _). by apply elem_of_nil in Hx.
  - destruct (f x) as [y|] eqn:Hy; simpl.
    + destruct (mapM f l) as [r|]; simpl.
      * split; [done |]. intros (x' & Hx' & Hf).
        apply elem_of_cons in Hx' as [-> | Hx']; [congruence |].
        assert (@Returns (list B) r = Throws) as Habs; [| done].
        apply IH. eauto.
      * split; [| done]. intros _.
        destruct (proj1 IH eq_refl) as (x' & Hx' & Hf).
        exists x'. split; [by apply list_elem_of_further | done].
    + split; [| done]. intros _. exists x. split; [apply list_elem_of_here | done].
Qed.

(** X17. Asked for one line or more, the reader returns the last [lines]
    pieces of the file cut at its newlines, or all of them when there are
    no more than that; the empty piece after a final newline counts as
    one.  [total_lines] is the number of pieces of the file and
    [showing_last] the number of pieces returned.  What is returned is an
    end of the file that starts at the start of a line: the file is the
    earlier pieces, joined by newlines, a newline, and the content
    returned. *)
Theorem readTail_shows_last_lines w logsDir lines f text :
  readTextFile w (logsDir +:+ "/" +:+ NewFile.name f) = Returns text ->
  1 <= lines ->
  exists r,
    Logs.readTail w logsDir lines f = Returns r /\
    LogFile.file r = NewFile.name f /\
    LogFile.total_lines r = Z.of_nat (length (JS.split "010" text)) /\
    LogFile.showing_last r = Z.min lines (LogFile.total_lines r) /\
    JS.split "010" (LogFile.content r)
    = drop (length (JS.split "010" text) - Z.to_nat lines) (JS.split "010" text) /\
    Z.of_nat (length (JS.split "010" (LogFile.content r)))
    = LogFile.showing_last r /\
    (LogFile.total_lines r <= lines -> LogFile.content r = text) /\
    (lines < LogFile.total_lines r ->
     text
     = JS.join (String "010" "")
         (take (length (JS.split "010" text) - Z.to_nat lines)
            (JS.split "010" text))
       +:+ String "010" (LogFile.content r)).
Proof.
  intros Hread Hlines. unfold Logs.readTail. rewrite Hread. simpl.
  eexists. split; [reflexivity |]. simpl.
  pose proof (split_not_nil "010" text) as Hne.
  assert (0 < length (JS.split "010" text))%nat as Hlen
    by (destruct (JS.split "010" text); [done | simpl; lia]).
  unfold JS.slice.
  replace (- lines <? 0) with true by (symmetry; apply Z.ltb_lt; lia).
  replace (Z.to_nat (Z.max (Z.of_nat (length (JS.split "010" text)) + - lines) 0))
    with (length (JS.split "010" text) - Z.to_nat lines)%nat by lia.
  set (k := (length (JS.split "010" text) - Z.to_nat lines)%nat).
  assert (k < length (JS.split "010" text))%nat as Hk by (subst k; lia).
  destruct (join_drop_lines text k Hk) as [Hsplit Hcut].
  repeat split; try done.
  - rewrite Hsplit, length_drop. subst k. lia.
  - intros Hshort. replace k with 0%nat by (subst k; lia).
    rewrite drop_0. apply join_split.
  - intros Hlong. apply Hcut. subst k. lia.
Qed.

Lemma readTail_shows_last_lines_witness :
  exists r,
    Logs.readTail (Sim.world ExLogs.machine) "/p/agent_logs" 2
      (NewFile.mk "agent-1.log" 1010) = Returns r /\
    LogFile.file r = "agent-1.log" /\
    LogFile.total_lines r = Z.of_nat (length (JS.split "010" (ExLogs.text "1"))) /\
    LogFile.showing_last r = Z.min 2 (LogFile.total_lines r) /\
    JS.split "010" (LogFile.content r)
    = drop (length (JS.split "010" (ExLogs.text "1")) - Z.to_nat 2)
        (JS.split "010" (ExLogs.text "1")) /\
    Z.of_nat (length (JS.split "010" (LogFile.content r)))
    = LogFile.showing_last r /\
    (LogFile.total_lines r <= 2 -> LogFile.content r = ExLogs.text "1") /\
    (2 < LogFile.total_lines r ->
     ExLogs.text "1"
     = JS.join (String "010" "")
         (take (length (JS.split "010" (ExLogs.text "1")) - Z.to_nat 2)
            (JS.split "010" (ExLogs.text "1")))
       +:+ String "010" (LogFile.content r)).
Proof.
  apply (readTail_shows_last_lines (Sim.world ExLogs.machine) "/p/agent_logs" 2
           (NewFile.mk "agent-1.log" 1010) (ExLogs.text "1")).
  - reflexivity.
  - lia.
Defined.

(** X18. Asked for no line, the reader returns the whole file while
    [showing_last] says 0; asked for a negative number of lines it drops
    that many lines from the start of the file, and [showing_last] is
    the negative number. *)
Theorem readTail_without_lines w logsDir lines f text :
  readTextFile w (logsDir +:+ "/" +:+ NewFile.name f) = Returns text ->
  lines <= 0 ->
  exists r,
    Logs.readTail w logsDir lines f = Returns r /\
    LogFile.showing_last r = lines /\
    LogFile.content r
    = JS.join (String "010" "") (drop (Z.to_nat (- lines)) (JS.split "010" text)) /\
    (lines = 0 -> LogFile.content r = text).
Proof.
  intros Hread Hlines. unfold Logs.readTail. rewrite Hread. simpl.
  eexists. split; [reflexivity |]. simpl.
  unfold JS.slice.
  replace (- lines <? 0) with false by (symmetry; apply Z.ltb_ge; lia).
  repeat split; [lia |].
  intros ->. simpl. rewrite drop_0. apply join_split.
Qed.

Lemma readTail_without_lines_witness :
  exists r,
    Logs.readTail (Sim.world ExLogs.machine) "/p/agent_logs" 0
      (NewFile.mk "agent-1.log" 1010) = Returns r /\
    LogFile.showing_last r = 0 /\
    LogFile.content r
    = JS.join (String "010" "")
        (drop (Z.to_nat (- 0)) (JS.split "010" (ExLogs.text "1"))) /\
    (0 = 0 -> LogFile.content r = ExLogs.text "1").
Proof.
  apply (readTail_without_lines (Sim.world ExLogs.machine) "/p/agent_logs" 0
           (NewFile.mk "agent-1.log" 1010) (ExLogs.text "1")).
  - reflexivity.
  - lia.
Defined.

End log_reader.

Section log_tool.

Lemma filter_nil_Forall {A} (f : A -> bool) (l : list A) :
  List.filter f l = [] <-> Forall (fun x => f x = false) l.
Proof.
  induction l as [|x l IH]; simpl; [by split; [constructor |] |].
  destruct (f x) eqn:Hx.
  - split; [done |]. intros [? _]%Forall_cons. congruence.
  - rewrite IH. split; [by constructor | by intros [_ ?]%Forall_cons].
Qed.

Lemma wanted_isLog agent_id e : Logs.wanted agent_id e = true -> isLog e = true.
Proof. unfold Logs.wanted, isLog. by destruct (_ && _). Qed.

Lemma elem_of_wanted_names agent_id entries name :
  name ∈ DirEntry.name <$> List.filter (Logs.wanted agent_id) entries <->
  exists e, e ∈ entries /\ Logs.wanted agent_id e = true /\ DirEntry.name e = name.
Proof.
  rewrite list_elem_of_fmap. split.
  - intros (e & -> & He). apply list_elem_of_In, List.filter_In in He as [He Hw].
    exists e. by rewrite list_elem_of_In.
  - intros (e & He & Hw & <-). exists e. split; [done |].
    apply list_elem_of_In, List.filter_In. by rewrite <- list_elem_of_In.
Qed.

(** X19. The three ways a call of the log reader ends without a listing
    of logs: a directory that cannot be listed gives the document of the
    missing directory, and nothing else gives it; a listing without a log
    of the agent gives the document without logs, and nothing else gives
    it; and the call rejects only when a log of the agent is there that
    cannot be stat'ed or cannot be read. *)
Theorem logs_outcomes w project_dir agent_id lines :
  (readDir w (project_dir +:+ "/agent_logs") = Throws <->
   exists path,
     Logs.handler w project_dir agent_id lines
     = Returns (LogsResponse.NoDirectory path)) /\
  (forall entries,
      readDir w (project_dir +:+ "/agent_logs") = Returns entries ->
      (Forall (fun e => Logs.wanted agent_id e = false) entries <->
       exists message,
         Logs.handler w project_dir agent_id lines
         = Returns (LogsResponse.NoLogs message))) /\
  (Logs.handler w project_dir agent_id lines = Throws ->
   exists entries e,
     readDir w (project_dir +:+ "/agent_logs") = Returns entries /\
     e ∈ entries /\ Logs.wanted agent_id e = true /\
     (stat w ((project_dir +:+ "/agent_logs") +:+ "/" +:+ DirEntry.name e)
      = Throws \/
      readTextFile w ((project_dir +:+ "/agent_logs") +:+ "/" +:+ DirEntry.name e)
      = Throws)).
Proof.
  unfold Logs.handler. cbv zeta.
  set (logsDir := project_dir +:+ "/agent_logs").
  destruct (readDir w logsDir) as [entries|] eqn:Hdir.
  2:{ split; [| split]; [| done | done]. split; [eauto | done]. }
  set (names := DirEntry.name <$> List.filter (Logs.wanted agent_id) entries).
  assert (names = [] <-> Forall (fun e => Logs.wanted agent_id e = false) entries)
    as Hnone.
  { rewrite <- filter_nil_Forall. unfold names.
    split; [apply fmap_nil_inv | by intros ->]. }
  destruct names as [|name names'] eqn:Hnames; simpl.
  - split; [| split]; [| | done].
    + split; [done |]. by intros (path & ?).
    + intros ? [= <-]. split; [eauto |]. intros _. by apply Hnone.
  - split; [| split].
    + split; [done |]. intros (path & H).
      destruct (Logs.statFile w logsDir name); [| done]. simpl in H.
      destruct (mapM _ names'); [| done]. simpl in H.
      by destruct (mapM _ (take _ _)).
    + intros ? [= <-]. split.
      * intros Hall. by apply Hnone in Hall.
      * intros (message & H).
        destruct (Logs.statFile w logsDir name); [| done]. simpl in H.
        destruct (mapM _ names'); [| done]. simpl in H.
        by destruct (mapM _ (take _ _)).
    + intros H. exists entries.
      change (mapM (Logs.statFile w logsDir) (name :: names') ≫= 
                (fun fileStats =>
                   results ← mapM (Logs.readTail w logsDir (default 50 lines))
                               (take Logs.maxFiles
                                  (JS.sort Changes.byMtimeDesc fileStats));
                   mret (LogsResponse.Logs
                           (Z.of_nat (length (JS.sort Changes.byMtimeDesc fileStats)))
                           (Z.of_nat (length results)) results)) = Throws) in H.
      destruct (mapM (Logs.statFile w logsDir) (name :: names'))
        as [fileStats|] eqn:Hstats.
      * simpl in H.
        destruct (mapM _ (take _ _)) as [results|] eqn:Hreads; [done |].
        apply mapM_Throws in Hreads as (f & Hf & Hread).
        apply subseteq_take, elem_of_sort in Hf.
        apply mapM_Returns_inv in Hstats.
        apply list_elem_of_lookup in Hf as (i & Hi).
        destruct (Forall2_lookup_r _ _ _ _ _ Hstats Hi) as (n & Hn & Hst).
        apply list_elem_of_lookup_2 in Hn. rewrite <- Hnames in Hn.
        apply elem_of_wanted_names in Hn as (e & He & Hw & <-).
        exists e. repeat split; [done | done |]. right.
        unfold Logs.statFile in Hst.
        destruct (stat w _); [| done]. simpl in Hst. injection Hst as <-.
        unfold Logs.readTail in Hread. simpl in Hread.
        by destruct (readTextFile w _).
      * apply mapM_Throws in Hstats as (n & Hn & Hst).
        rewrite <- Hnames in Hn.
        apply elem_of_wanted_names in Hn as (e & He & Hw & <-).
        exists e. repeat split; [done | done |]. left.
        unfold Logs.statFile in Hst. by destruct (stat w _).
Qed.

(** X20. A log that is listed but cannot be stat'ed makes the log reader
    reject, while the scan of the new logs of the changes tool answers
    that there is no new log at all. *)
Theorem stat_failure_rejects_or_hides w project_dir agent_id lines since
    entries e :
  readDir w (project_dir +:+ "/agent_logs") = Returns entries ->
  e ∈ entries ->
  Logs.wanted agent_id e = true ->
  stat w ((project_dir +:+ "/agent_logs") +:+ "/" +:+ DirEntry.name e) = Throws ->
  Logs.handler w project_dir agent_id lines = Throws /\
  Changes.scanNewLogs w (project_dir +:+ "/agent_logs") since
  = Returns (LogScan.mk 0 []).
Proof.
  intros Hdir He Hw Hst. split.
  - unfold Logs.handler. cbv zeta. rewrite Hdir.
    set (logsDir := project_dir +:+ "/agent_logs") in *.
    assert (DirEntry.name e
            ∈ DirEntry.name <$> List.filter (Logs.wanted agent_id) entries) as Hn
      by (apply elem_of_wanted_names; eauto).
    destruct (DirEntry.name <$> List.filter (Logs.wanted agent_id) entries)
      as [|name names] eqn:Hnames; [by apply elem_of_nil in Hn |].
    change ((length (name :: names) =? 0)%nat) with false. cbv iota.
    assert (mapM (Logs.statFile w logsDir) (name :: names) = Throws) as ->; [| done].
    apply mapM_Throws. exists (DirEntry.name e). split; [done |].
    unfold Logs.statFile. by rewrite Hst.
  - unfold Changes.scanNewLogs. rewrite Hdir. simpl.
    set (logsDir := project_dir +:+ "/agent_logs") in *.
    assert (forall acc, Changes.scanEntries w logsDir since entries acc = Throws)
      as ->; [| done].
    clear Hdir. induction entries as [|e' entries IH]; intros acc;
      [by apply elem_of_nil in He |].
    simpl. fold (isLog e').
    apply elem_of_cons in He as [<- | He].
    + rewrite (wanted_isLog _ _ Hw), Hst. done.
    + specialize (IH He).
      destruct (isLog e'); [| by apply IH].
      destruct (stat w (logsDir +:+ "/" +:+ DirEntry.name e')); [| done]. simpl.
      destruct (JS.gt _ _); by apply IH.
Qed.

Lemma stat_failure_rejects_or_hides_witness :
  Logs.handler ExMore.unstatable "/p" None None = Throws /\
  Changes.scanNewLogs ExMore.unstatable ("/p" +:+ "/agent_logs") (Num 0)
  = Returns (LogScan.mk 0 []).
Proof.
  apply (stat_failure_rejects_or_hides ExMore.unstatable "/p" None None (Num 0)
           [DirEntry.mk "agent-1.log" true] (DirEntry.mk "agent-1.log" true)).
  - reflexivity.
  - apply list_elem_of_here.
  - reflexivity.
  - reflexivity.
Defined.

End log_tool.

Section log_listing.

(** X21. The listing the log reader returns: [total_log_files] counts
    every log of the agent in the directory, at most five of them are
    shown, newest first, each shown file is a log of the agent, and a
    log of the agent that is not shown is at most as recent as each
    shown one. *)
Theorem logs_listing w project_dir agent_id lines entries mtime
    total showing logs :
  readDir w (project_dir +:+ "/agent_logs") = Returns entries ->
  (forall e, e ∈ entries -> Logs.wanted agent_id e = true ->
     exists st,
       stat w ((project_dir +:+ "/agent_logs") +:+ "/" +:+ DirEntry.name e)
       = Returns st /\
       default 0 (FileInfo.mtime st) = mtime (DirEntry.name e)) ->
  Logs.handler w project_dir agent_id lines
  = Returns (LogsResponse.Logs total showing logs) ->
  total = Z.of_nat (length (List.filter (Logs.wanted agent_id) entries)) /\
  showing = Z.min 5 total /\
  Z.of_nat (length logs) = showing /\
  StronglySorted (keyGe (fun r => mtime (LogFile.file r))) logs /\
  (forall r, r ∈ logs ->
     exists e, e ∈ entries /\ Logs.wanted agent_id e = true /\
               LogFile.file r = DirEntry.name e) /\
  (forall e r, e ∈ entries -> Logs.wanted agent_id e = true -> r ∈ logs ->
     (forall r', r' ∈ logs -> LogFile.file r' <> DirEntry.name e) ->
     mtime (DirEntry.name e) <= mtime (LogFile.file r)).
Proof.
  intros Hdir Hstat. unfold Logs.handler. cbv zeta. rewrite Hdir.
  set (logsDir := project_dir +:+ "/agent_logs") in *.
  set (names := DirEntry.name <$> List.filter (Logs.wanted agent_id) entries).
  assert (mapM (Logs.statFile w logsDir) names
          = Returns ((fun n => NewFile.mk n (mtime n)) <$> names)) as Hstats.
  { apply mapM_Returns. intros n (e & He & Hw & <-)%elem_of_wanted_names.
    destruct (Hstat e He Hw) as (st & Hst & Hm).
    unfold Logs.statFile. rewrite Hst. simpl. by rewrite Hm. }
  destruct (length names =? 0)%nat eqn:Hlen; [done |].
  rewrite Hstats. simpl.
  set (stats := (fun n => NewFile.mk n (mtime n)) <$> names).
  set (sorted := JS.sort Changes.byMtimeDesc stats).
  assert (StronglySorted (keyGe NewFile.mtime) sorted) as Hsorted
    by by apply (sort_sorted Changes.byMtimeDesc NewFile.mtime).
  assert (forall f, f ∈ sorted -> NewFile.mtime f = mtime (NewFile.name f)) as Hm.
  { intros f Hf. apply elem_of_sort in Hf. unfold stats in Hf.
    by apply list_elem_of_fmap in Hf as (n & -> & _). }
  destruct (mapM _ (take _ sorted)) as [results|] eqn:Hreads; [| done].
  simpl. intros [= <- <- <-].
  apply mapM_Returns_inv in Hreads.
  assert (Forall2 (fun f r => LogFile.file r = NewFile.name f)
            (take Logs.maxFiles sorted) results) as Hfiles.
  { eapply Forall2_impl; [exact Hreads |]. intros f r Hr.
    unfold Logs.readTail in Hr. destruct (readTextFile w _); [| done].
    simpl in Hr. by injection Hr as <-. }
  assert (length sorted = length (List.filter (Logs.wanted agent_id) entries))
    as Htotal by (unfold sorted, stats, names; by rewrite sort_length, !length_fmap).
  assert (length results = Nat.min 5 (length sorted)) as Hshown.
  { rewrite <- (Forall2_length _ _ _ Hreads), length_take.
    unfold Logs.maxFiles. lia. }
  assert (forall r, r ∈ results ->
            exists f, f ∈ take Logs.maxFiles sorted /\
                      LogFile.file r = NewFile.name f) as Hfrom.
  { intros r Hr. apply list_elem_of_lookup in Hr as (i & Hi).
    destruct (Forall2_lookup_r _ _ _ _ _ Hfiles Hi) as (f & Hf & Hname).
    exists f. split; [by eapply list_elem_of_lookup_2 | done]. }
  split; [by rewrite Htotal |]. split; [lia |]. split; [lia |].
  split; [| split].
  - assert (StronglySorted (keyGe NewFile.mtime) (take Logs.maxFiles sorted))
      as Htop.
    { rewrite <- (take_drop Logs.maxFiles sorted) in Hsorted.
      by apply StronglySorted_app_1_l in Hsorted. }
    assert (forall f, f ∈ take Logs.maxFiles sorted
                      -> NewFile.mtime f = mtime (NewFile.name f)) as Hm'
      by (intros f Hf; by apply Hm, (subseteq_take Logs.maxFiles)).
    clear Hreads Hshown Hfrom.
    induction Hfiles as [|f r top res Hr Hrest IH]; [constructor |].
    apply StronglySorted_inv in Htop as [Htop Hf].
    constructor.
    + apply IH; [done |]. intros g Hg. by apply Hm', list_elem_of_further.
    + apply Forall_forall. intros r' Hr'.
      apply list_elem_of_lookup in Hr' as (i & Hi).
      destruct (Forall2_lookup_r _ _ _ _ _ Hrest Hi) as (g & Hg & Hname).
      apply list_elem_of_lookup_2 in Hg.
      unfold keyGe. rewrite Hr, Hname.
      rewrite <- (Hm' f) by apply list_elem_of_here.
      rewrite <- (Hm' g) by by apply list_elem_of_further.
      by eapply Forall_forall in Hf.
  - intros r (f & Hf & ->)%Hfrom.
    apply subseteq_take, elem_of_sort in Hf. unfold stats in Hf.
    apply list_elem_of_fmap in Hf as (n & -> & Hn).
    apply elem_of_wanted_names in Hn as (e & He & Hw & <-). eauto.
  - intros e r He Hw Hr Hnot.
    destruct (Hfrom r Hr) as (f & Hf & ->).
    assert (NewFile.mk (DirEntry.name e) (mtime (DirEntry.name e)) ∈ sorted)
      as Hin.
    { apply elem_of_sort. unfold stats. apply list_elem_of_fmap.
      exists (DirEntry.name e). split; [done |].
      apply elem_of_wanted_names. eauto. }
    rewrite <- (take_drop Logs.maxFiles sorted) in Hin.
    apply elem_of_app in Hin as [Hin | Hin].
    + exfalso. apply list_elem_of_lookup in Hin as (i & Hi).
      destruct (Forall2_lookup_l _ _ _ _ _ Hfiles Hi) as (r' & Hr' & Hname).
      apply list_elem_of_lookup_2 in Hr'. by apply (Hnot r').
    + rewrite <- (Hm f) by by apply (subseteq_take Logs.maxFiles).
      by apply (sorted_take_drop NewFile.mtime Logs.maxFiles sorted f
                  (NewFile.mk (DirEntry.name e) (mtime (DirEntry.name e)))).
Qed.

Lemma logs_listing_witness :
  exists logs,
    Logs.handler (Sim.world ExLogs.machine) "/p" (Some "agent-") (Some 1)
    = Returns (LogsResponse.Logs 8 5 logs) /\
    LogFile.file <$> logs
    = ["agent-2.log"; "agent-4.log"; "agent-6.log"; "agent-5.log"; "agent-7.log"] /\
    StronglySorted (keyGe (fun r => ExLogs.mtimeOf (LogFile.file r))) logs.
Proof.
  eexists. split; [vm_compute; reflexivity |]. split; [reflexivity |].
  eapply (proj1 (proj2 (proj2 (proj2
            (logs_listing (Sim.world ExLogs.machine) "/p" (Some "agent-") (Some 1)
               ((fun f => DirEntry.mk (File.name f) true) <$> ExLogs.files)
               ExLogs.mtimeOf 8 5 _ _ _ _))))).
  Unshelve.
  - reflexivity.
  - intros e He Hw.
    repeat (apply elem_of_cons in He as [-> | He];
            [first [discriminate Hw | eexists; split; reflexivity] |]).
    by apply elem_of_nil in He.
  - vm_compute. reflexivity.
Defined.

End log_listing.

(** ** More on the changes tool *)

Section changes_more.

Lemma length_append (s r : string) :
  String.length (s +:+ r) = (String.length s + String.length r)%nat.
Proof. induction s as [|c s IH]; [done |]. rewrite append_cons. simpl. by rewrite IH. Qed.

Lemma substring_all (s : string) : String.substring 0 (String.length s) s = s.
Proof. induction s as [|c s IH]; [done |]. simpl. by rewrite IH. Qed.

Lemma substring_none (s : string) : String.substring 0 0 s = "".
Proof. by destruct s. Qed.

Lemma substring_prefix (h r : string) :
  String.substring 0 (String.length h) (h +:+ r) = h.
Proof.
  induction h as [|c h IH]; [apply substring_none |].
  rewrite append_cons. simpl. by rewrite IH.
Qed.

Lemma substring_suffix (h r : string) :
  String.substring (String.length h) (String.length r) (h +:+ r) = r.
Proof.
  induction h as [|c h IH]; [apply substring_all |].
  rewrite append_cons. simpl. by rewrite IH.
Qed.

Lemma indexOf_lacks c (s : string) : lacks c s = true -> JS.indexOf c s = -1.
Proof.
  unfold lacks. induction s as [|a s IH]; [done |]. simpl.
  intros [Ha Hs]%andb_true_iff. apply negb_true_iff in Ha.
  by rewrite Ha, IH.
Qed.

Lemma indexOf_first c (h r : string) :
  lacks c h = true ->
  JS.indexOf c (h +:+ String c r) = Z.of_nat (String.length h).
Proof.
  unfold lacks. induction h as [|a h IH]; simpl.
  - intros _. by rewrite Ascii.eqb_refl.
  - intros [Ha Hs]%andb_true_iff. apply negb_true_iff in Ha.
    rewrite ?append_cons. simpl. rewrite Ha, IH by done.
    destruct (Z.ltb_spec (Z.of_nat (String.length h)) 0); lia.
Qed.

(** X22. A line of the one-line log is cut at its first space: the hash
    is what stands before it and the message all that follows; a line
    without a space gives an empty hash and the whole line as message. *)
Theorem parseCommitLine_spec :
  (forall hash message,
      lacks " " hash = true ->
      Changes.parseCommitLine (hash +:+ String " " message)
      = CommitLine.mk hash message) /\
  (forall line,
      lacks " " line = true ->
      Changes.parseCommitLine line = CommitLine.mk "" line).
Proof.
  split.
  - intros hash message Hhash. unfold Changes.parseCommitLine.
    rewrite indexOf_first by done.
    unfold JS.substringFrom, JS.substring, JS.clamp.
    rewrite length_append. simpl String.length.
    f_equal.
    + replace (Z.to_nat (Z.min _ _)) with 0%nat by lia.
      replace (Z.to_nat (_ - _)) with (String.length hash) by lia.
      apply substring_prefix.
    + replace (Z.to_nat (Z.min _ _)) with (String.length (hash +:+ " "))
        by (rewrite length_append; simpl; lia).
      replace (Z.to_nat (_ - _)) with (String.length message) by lia.
      change (String " " message) with (" " +:+ message).
      rewrite <- string_app_assoc. apply substring_suffix.
  - intros line Hline. unfold Changes.parseCommitLine.
    rewrite indexOf_lacks by done.
    unfold JS.substringFrom, JS.substring, JS.clamp. f_equal.
    + replace (Z.to_nat (Z.min _ _)) with 0%nat by lia.
      replace (Z.to_nat (_ - _)) with 0%nat by lia.
      apply substring_none.
    + replace (Z.to_nat (Z.min _ _)) with 0%nat by lia.
      replace (Z.to_nat (_ - _)) with (String.length line) by lia.
      apply substring_all.
Qed.

Lemma parseCommitLine_spec_witness :
  Changes.parseCommitLine ("c1f9e8d" +:+ String " " "US-1: claim")
  = CommitLine.mk "c1f9e8d" "US-1: claim" /\
  Changes.parseCommitLine "c1f9e8d" = CommitLine.mk "" "c1f9e8d".
Proof.
  split.
  - apply (proj1 parseCommitLine_spec "c1f9e8d" "US-1: claim"). reflexivity.
  - apply (proj2 parseCommitLine_spec "c1f9e8d"). reflexivity.
Defined.

Lemma likelyNewFilter_Throws now since (cs : list ContainerInfo.t) :
  Changes.likelyNewFilter now since cs = Throws <->
  exists c, c ∈ cs /\ ContainerInfo.running_for c = None.
Proof.
  induction cs as [|c cs IH]; simpl.
  - split; [done |]. intros (c & Hc & _). by apply elem_of_nil in Hc.
  - destruct (ContainerInfo.running_for c) as [s|] eqn:Hs.
    + destruct (Changes.likelyNewFilter now since cs) as [rest|]; simpl.
      * split; [by destruct (Changes.isLikelyNew now since s) |].
        intros (c' & Hc' & Hnone).
        apply elem_of_cons in Hc' as [-> | Hc']; [congruence |].
        assert (@Returns (list ContainerInfo.t) rest = Throws) as Habs; [| done].
        apply IH. eauto.
      * split; [| done]. intros _.
        destruct (proj1 IH eq_refl) as (c' & Hc' & Hnone).
        exists c'. split; [by apply list_elem_of_further | done].
    + split; [| done]. intros _. exists c. split; [apply list_elem_of_here | done].
Qed.

Lemma likelyNewFilter_sublist now since (cs l : list ContainerInfo.t) :
  Changes.likelyNewFilter now since cs = Returns l ->
  sublist l cs /\
  Forall (fun c => is_Some (ContainerInfo.running_for c)) cs.
Proof.
  revert l. induction cs as [|c cs IH]; intros l; simpl.
  - intros [= <-]. by split.
  - destruct (ContainerInfo.running_for c) as [s|] eqn:Hs; [| done].
    destruct (Changes.likelyNewFilter now since cs) as [rest|]; [| done].
    destruct (IH rest eq_refl) as [Hsub Hall]. simpl.
    destruct (Changes.isLikelyNew now since s); intros [= <-].
    + split; [by constructor | constructor; [by rewrite Hs | done]].
    + split; [by constructor | constructor; [by rewrite Hs | done]].
Qed.

Lemma parseContainerLine_running_for line :
  ContainerInfo.running_for (Changes.parseContainerLine line) = None <->
  (occurrences "009" line < 2)%nat.
Proof.
  unfold Changes.parseContainerLine. simpl.
  rewrite lookup_ge_None, length_split. lia.
Qed.

(** X23. A line of docker that has fewer than two tabs makes the call of
    the changes tool reject: its record has no uptime to match. *)
Theorem changes_rejects_short_container_line w project_dir since_commit
    res line :
  Exec.exec w Changes.dockerPs None = Returns res ->
  ExecResult.success res = true ->
  line ∈ JS.split "010" (JS.trim (ExecResult.stdout res)) ->
  line <> "" ->
  (occurrences "009" line < 2)%nat ->
  Changes.handler w project_dir since_commit = Throws.
Proof.
  intros Hdocker Hok Hline Hne Htabs.
  assert (forall since, Changes.likelyNewFilter (now w) since (containersOf w)
                        = Throws) as Hfilter.
  { intros since. apply likelyNewFilter_Throws.
    exists (Changes.parseContainerLine line).
    split; [| by apply parseContainerLine_running_for].
    unfold containersOf, parsedLines. rewrite Hdocker, Hok.
    apply list_elem_of_fmap. exists line. split; [done |].
    apply list_elem_of_In, List.filter_In. rewrite <- list_elem_of_In.
    split; [done |]. unfold Changes.nonEmpty.
    apply negb_true_iff, String.eqb_neq. done. }
  rewrite handler_unfold. cbv zeta.
  destruct (sinceCommitOf w _ since_commit); [| done]. simpl.
  destruct (Exec.exec w headCmd _); [| done]. simpl.
  destruct (sinceTimestampOf w _ _); [| done]. simpl.
  destruct (Changes.scanNewLogs w _ _); [| done]. simpl.
  destruct (Changes.diffParsed _ _); [| done]. simpl.
  by rewrite Hfilter.
Qed.

Lemma changes_rejects_short_container_line_witness :
  Changes.handler (Sim.world ExMore.shortLine) "/p" None = Throws.
Proof.
  apply (changes_rejects_short_container_line (Sim.world ExMore.shortLine) "/p"
           None (Git.ok ("ralph-agent-1" +:+ Changes.tab +:+ "Up 2 minutes"
                         +:+ String "010" ""))
           ("ralph-agent-1" +:+ Changes.tab +:+ "Up 2 minutes")).
  - reflexivity.
  - reflexivity.
  - vm_compute. apply list_elem_of_here.
  - discriminate.
  - vm_compute. lia.
Defined.

(** X24. In the document of a call that returns, the workers flagged as
    likely new are workers of the current list, in the order of that
    list, and every worker of the current list has an uptime. *)
Theorem likely_new_are_current w project_dir since_commit r :
  Changes.handler w project_dir since_commit = Returns r ->
  sublist (Containers.likely_new (ChangesResult.containers r))
          (ContainerInfo.name <$> Containers.current (ChangesResult.containers r))
  /\ Forall (fun c => is_Some (ContainerInfo.running_for c))
            (Containers.current (ChangesResult.containers r)).
Proof.
  intros (sinceCommit & headResult & sinceTimestamp & logEntries & transitions &
          likelyNew & _ & _ & _ & _ & _ & Hnew & ->)%handler_Returns_inv.
  simpl. apply likelyNewFilter_sublist in Hnew as [Hsub Hall].
  split; [by apply fmap_sublist | done].
Qed.

Lemma likely_new_are_current_witness :
  exists r,
    Changes.handler (Sim.world ExMore.withWorkers) "/p" None = Returns r /\
    Containers.likely_new (ChangesResult.containers r) = [Some "ralph-agent-1"] /\
    sublist (Containers.likely_new (ChangesResult.containers r))
            (ContainerInfo.name <$> Containers.current (ChangesResult.containers r))
    /\ Forall (fun c => is_Some (ContainerInfo.running_for c))
              (Containers.current (ChangesResult.containers r)).
Proof.
  eexists. split; [vm_compute; reflexivity |]. split; [reflexivity |].
  apply (likely_new_are_current (Sim.world ExMore.withWorkers) "/p" None).
  vm_compute. reflexivity.
Defined.

End changes_more.

Section reference_time.

Lemma scanEntries_NaN w logsDir entries acc l :
  Changes.scanEntries w logsDir NaN entries acc = Returns l -> l = acc.
Proof.
  revert acc. induction entries as [|e entries IH]; intros acc; simpl.
  - by intros [= <-].
  - destruct (_ && _); [| by apply IH].
    destruct (stat w _); [| done]. simpl. by apply IH.
Qed.

Lemma scanNewLogs_NaN w logsDir :
  Changes.scanNewLogs w logsDir NaN = Returns (LogScan.mk 0 []).
Proof.
  unfold Changes.scanNewLogs.
  destruct (readDir w logsDir) as [entries|]; [| done]. simpl.
  destruct (Changes.scanEntries w logsDir NaN entries []) as [l|] eqn:Hl; [| done].
  by apply scanEntries_NaN in Hl as ->.
Qed.

Lemma isLikelyNew_NaN now s : Changes.isLikelyNew now NaN s = false.
Proof.
  unfold Changes.isLikelyNew.
  destruct (Changes.uptimeMatch s) as [[digits unit]|]; [| done].
  simpl. unfold JS.lt. by destruct (JS.mul _ _).
Qed.

Lemma likelyNewFilter_NaN now cs l :
  Changes.likelyNewFilter now NaN cs = Returns l -> l = [].
Proof.
  revert l. induction cs as [|c cs IH]; intros l; simpl.
  - by intros [= <-].
  - destruct (ContainerInfo.running_for c) as [s|]; [| done].
    destruct (Changes.likelyNewFilter now NaN cs) as [rest|]; [| done].
    simpl. rewrite isLikelyNew_NaN. intros [= <-]. by apply IH.
Qed.

(** X25. When git answers the lookup of the time of since_commit with
    something that is not a number, the reference time is not a number:
    no log is counted as new and no worker is flagged as likely new. *)
Theorem unreadable_time_nothing_new w project_dir since_commit r res :
  Changes.handler w project_dir since_commit = Returns r ->
  Exec.exec w (timeCmd (ChangesResult.since_commit r))
    (Some (project_dir +:+ "/.ralph/repo.git")) = Returns res ->
  ExecResult.success res = true ->
  JS.parseInt (JS.trim (ExecResult.stdout res)) = NaN ->
  ChangesResult.new_log_entries r = LogScan.mk 0 [] /\
  Containers.likely_new (ChangesResult.containers r) = [].
Proof.
  intros (sinceCommit & headResult & sinceTimestamp & logEntries & transitions &
          likelyNew & _ & _ & Hts & Hlogs & _ & Hnew & ->)%handler_Returns_inv.
  simpl. intros Hres Hok Hnan.
  unfold sinceTimestampOf in Hts. rewrite Hres, Hok, Hnan in Hts.
  simpl in Hts. injection Hts as <-.
  rewrite scanNewLogs_NaN in Hlogs. injection Hlogs as <-.
  by apply likelyNewFilter_NaN in Hnew as ->.
Qed.

Lemma unreadable_time_nothing_new_witness :
  exists r,
    Changes.handler ExMore.treeish "/p" (Some "HEAD^{tree}") = Returns r /\
    ChangesResult.new_log_entries r = LogScan.mk 0 [] /\
    Containers.likely_new (ChangesResult.containers r) = [].
Proof.
  eexists. split; [vm_compute; reflexivity |].
  apply (unreadable_time_nothing_new ExMore.treeish "/p" (Some "HEAD^{tree}") _
           (Git.ok "tree")); reflexivity.
Defined.

(** X26. A worker flagged as likely new with respect to a reference time
    is flagged with respect to every earlier reference time. *)
Theorem isLikelyNew_earlier_reference now since since' running_for :
  since' <= since ->
  Changes.isLikelyNew now (Num since) running_for = true ->
  Changes.isLikelyNew now (Num since') running_for = true.
Proof.
  intros Hle. rewrite !isLikelyNew_iff.
  intros (ds & unit & Hm & Hunit & Hlt).
  exists ds, unit. repeat split; [done | done | lia].
Qed.

Lemma isLikelyNew_earlier_reference_witness :
  Changes.isLikelyNew 1700000200000 (Num 0) "2 minutes ago" = true.
Proof.
  apply (isLikelyNew_earlier_reference 1700000200000 1700000000000 0
           "2 minutes ago").
  - lia.
  - reflexivity.
Defined.

End reference_time.

(** ** The latest commit *)

Section latest_commit.



End latest_commit.
